(** * The book builder's segmentation engine (tools/modules/book.js)

    A shallow embedding of the loop of [build] that walks the lines of a
    Markdown book, recognises titles outside code blocks, numbers them,
    groups them into sections and produces the data handed to the page
    template.

    JavaScript strings are sequences of UTF-16 code units; they are kept
    here as lists of code units so that the line terminators U+2028 and
    U+2029 and the white space recognised by [trim] can be told apart. *)

From Stdlib Require Import String Ascii DecimalString.
From Stdlib Require Import List NArith Arith Bool Lia.
Import ListNotations.

Local Open Scope nat_scope.

(** ** Strings *)

Definition char := N.
Definition jsstring := list char.

(** [js "abc"] is the JavaScript string literal ['abc']. *)
Fixpoint js (s : string) : jsstring :=
  match s with
  | EmptyString => []
  | String a r => N_of_ascii a :: js r
  end.

Definition char_eqb (a b : char) : bool := N.eqb a b.

Definition c_hash : char := 35%N.
Definition c_space : char := 32%N.
Definition c_dash : char := 45%N.
Definition c_dot : char := 46%N.
Definition c_lf : char := 10%N.
Definition c_cr : char := 13%N.

(** [line.startsWith(p)] *)
Fixpoint startsWith (p s : jsstring) : bool :=
  match p with
  | [] => true
  | a :: p' =>
    match s with
    | [] => false
    | b :: s' => char_eqb a b && startsWith p' s'
    end
  end.

(** [a.join(sep)] on an array of strings. *)
Fixpoint join (sep : jsstring) (l : list jsstring) : jsstring :=
  match l with
  | [] => []
  | [x] => x
  | x :: r => x ++ sep ++ join sep r
  end.

(** The characters that [.] of a regular expression refuses and at which
    nothing but the end of input lets [$] succeed: LF, CR, U+2028, U+2029. *)
Definition is_line_terminator (c : char) : bool :=
  (c =? 10)%N || (c =? 13)%N || (c =? 8232)%N || (c =? 8233)%N.

(** The characters removed by [String.prototype.trim]: white space and line
    terminators. *)
Definition is_whitespace (c : char) : bool :=
  (c =? 9)%N || (c =? 10)%N || (c =? 11)%N || (c =? 12)%N || (c =? 13)%N ||
  (c =? 32)%N || (c =? 160)%N || (c =? 5760)%N ||
  ((8192 <=? c)%N && (c <=? 8202)%N) ||
  (c =? 8232)%N || (c =? 8233)%N || (c =? 8239)%N || (c =? 8287)%N ||
  (c =? 12288)%N || (c =? 65279)%N.

(** Truthiness of [s.trim()]: some character of [s] is not white space. *)
Definition trim_nonempty (s : jsstring) : bool :=
  existsb (fun c => negb (is_whitespace c)) s.

(** [source.split(/\r\n|\r|\n/g)]; [cur] is the line being read. *)
Fixpoint split_from (cur : jsstring) (s : jsstring) : list jsstring :=
  match s with
  | [] => [cur]
  | c :: r =>
    if (c =? 13)%N then
      match r with
      | d :: r' => if (d =? 10)%N then cur :: split_from [] r'
                   else cur :: split_from [] r
      | [] => cur :: split_from [] r
      end
    else if (c =? 10)%N then cur :: split_from [] r
    else split_from (cur ++ [c]) r
  end.

Definition split_lines (source : jsstring) : list jsstring :=
  split_from [] source.

(** Decimal rendering of a counter, as [join] prints a number. *)
Definition number_to_string (n : nat) : jsstring :=
  js (NilEmpty.string_of_uint (Nat.to_uint n)).

(** ** The title pattern: a run of hashes, spaces, the rest of the line *)

Fixpoint skip (c : char) (s : jsstring) : jsstring :=
  match s with
  | [] => []
  | a :: r => if char_eqb a c then skip c r else s
  end.

Fixpoint run_length (c : char) (s : jsstring) : nat :=
  match s with
  | [] => 0
  | a :: r => if char_eqb a c then S (run_length c r) else 0
  end.

(** [line.match] with the pattern anchored at both ends that reads a run
    of one or more hashes (group 1), any number of spaces, and any
    characters but line terminators (group 2).  [None] is the [null] of a
    failed match, otherwise the length of group 1 and group 2.  The three groups are
    greedy: all the leading hashes, all the spaces that follow, and the
    rest, which must reach the end of the line, so the match succeeds
    exactly when the line starts with a hash and the rest has no line
    terminator. *)
Definition title_match (line : jsstring) : option (nat * jsstring) :=
  let hashes := run_length c_hash line in
  let rest := skip c_space (skip c_hash line) in
  if (1 <=? hashes) && forallb (fun c => negb (is_line_terminator c)) rest
  then Some (hashes, rest)
  else None.

(** ** The data handed to the template *)

Record title_obj := {
  text : jsstring;
  slug : jsstring;
  depth : nat;
  section_slug : jsstring;
  is_main_title : bool;
  is_section : bool;
  is_subtitle : bool;
  is_max_subtitle : bool;
  is_subsubtitle_or_more : bool;
  depth_dec : nat;
  prettydepth : jsstring
}.

(** An entry of a section: a title ([_TITLE]) or rendered content
    ([_CONTENT]). *)
Inductive item :=
| Title (t : title_obj)
| Content (html : jsstring).

Record section := {
  sec_slug : jsstring;
  content : list item
}.

(** The object given to the compiled template. *)
Record book := {
  title : option title_obj;
  book_summary : list title_obj;
  book_sections : list section
}.

(** ** Failures *)

Inductive failure :=
| Exit (code : nat)   (* [error(message, code)] *)
| TypeError.          (* reading [match[1]] of a [null] match *)

Inductive result (A : Type) :=
| OK (a : A)
| Err (e : failure).
Arguments OK {A} a.
Arguments Err {A} e.

(** Modelled from the spec: the helper [error(message, code)] of the build
    tools is not among the sources.  Structural violations "are fatal for
    the whole build -- the engine reports a descriptive error and the
    surrounding process aborts the conversion; there is no partial or
    best-effort output", and the exit codes are "mapped 1:1 to specific
    failure messages": a call ends the build with its code. *)
Definition error {A : Type} (code : nat) : result A := Err (Exit code).

(** [Main title was not found in book ...] *)
Definition MAIN_TITLE_NOT_FOUND : nat := 9.
(** [Duplicate main title detected for book ...] *)
Definition DUPLICATE_MAIN_TITLE : nat := 10.
(** [Content not allowed outside sections (below ## titles and deeper)] *)
Definition CONTENT_OUTSIDE_SECTIONS : nat := 11.

(** ** The counters *)

(** An element of the [counter] array: a number, [NaN], or a hole left
    when an assignment beyond the end extends the array. *)
Inductive cell :=
| Num (n : nat)
| NaN
| Hole.

(** [c++] on the value read from the array: a hole or a missing index reads
    as [undefined], whose increment is [NaN]. *)
Definition cell_incr (c : cell) : cell :=
  match c with
  | Num n => Num (S n)
  | NaN => NaN
  | Hole => NaN
  end.

(** [counter[depth] ++] *)
Fixpoint counter_incr (counter : list cell) (depth : nat) : list cell :=
  match counter, depth with
  | [], 0 => [NaN]
  | [], S d => Hole :: counter_incr [] d
  | c :: r, 0 => cell_incr c :: r
  | c :: r, S d => c :: counter_incr r d
  end.

(** [for (let i = depth + 1; i < counter.length; i++) counter[i] = 0] *)
Fixpoint counter_reset (counter : list cell) (depth : nat) : list cell :=
  match counter with
  | [] => []
  | c :: r =>
    match depth with
    | 0 => c :: map (fun _ => Num 0) r
    | S d => c :: counter_reset r d
    end
  end.

Definition advance (counter : list cell) (depth : nat) : list cell :=
  counter_reset (counter_incr counter depth) depth.

(** [c => c > 0]; [filter] does not visit holes. *)
Definition positive (c : cell) : bool :=
  match c with
  | Num n => 0 <? n
  | NaN => false
  | Hole => false
  end.

Definition cell_to_string (c : cell) : jsstring :=
  match c with
  | Num n => number_to_string n
  | NaN => js "NaN"
  | Hole => []
  end.

(** [counter.filter(c => c > 0).join('.') + '.'] *)
Definition counter_label (counter : list cell) : jsstring :=
  join [c_dot] (map cell_to_string (filter positive counter)) ++ [c_dot].

(** [(depth === 1) ? '0.' : counter.filter(c => c > 0).join('.') + '.'] *)
Definition pretty (counter : list cell) (depth : nat) : jsstring :=
  if depth =? 1 then js "0." else counter_label counter.

Definition fence : jsstring := js "```".
Definition hash : jsstring := js "#".

(** The line appended to the lines of the source "to close the last
    section". *)
Definition END_OF_FILE : jsstring := js "## END OF FILE".

(** A stand-in for the host's lower-casing, used to run the engine on
    examples: the letters A-Z of the ASCII range go to a-z and every other
    code unit is kept. *)
Definition ascii_lower_char (c : char) : char :=
  if (65 <=? c)%N && (c <=? 90)%N then (c + 32)%N else c.

Definition ascii_lower (s : jsstring) : jsstring := map ascii_lower_char s.

Definition is_ascii (c : char) : bool := (c <? 128)%N.

(** A stand-in for the Markdown renderer, used to run the engine on
    examples: the text is returned as it is. *)
Definition plain_render (s : jsstring) : jsstring := s.

(** ** Example documents *)

(** A title, two sections, and a code block that holds a line starting
    with a hash. *)
Definition two_sections : list jsstring :=
  [js "# Book"; js ""; js "## One"; js "text"; js "```";
   js "# not a title"; js "```"; js "## Two"; js "more"].

(** A document whose code block is never closed. *)
Definition unclosed_fence : list jsstring :=
  [js "# Book"; js "## One"; js "intro"; js "### Detail"; js "```";
   js "code"].

(** Titles of depths 1, 2, 3, 2, 3, 3. *)
Definition nested_titles : list jsstring :=
  [js "# T"; js "## A"; js "### A1"; js "text"; js "## B"; js "### B1";
   js "### B2"].

(** A title of depth 5 under the first section. *)
Definition deep_title : list jsstring :=
  [js "# T"; js "## A"; js "##### E"].

(** A fence line right after the main title. *)
Definition fence_after_title : list jsstring :=
  [js "# T"; js "```"].

(** ** The highlighting callback and its counters *)

Section Highlight.

(** What the host and the [highlights] module provide:
    [String.prototype.toLocaleLowerCase] and [highlighter.highlightSync]
    on the values of [fileContents] and [scopeName]. *)
Variable toLocaleLowerCase : jsstring -> jsstring.
Variable highlightSync : jsstring -> jsstring -> jsstring.

Fixpoint str_eqb (a b : jsstring) : bool :=
  match a, b with
  | [], [] => true
  | x :: a', y :: b' => char_eqb x y && str_eqb a' b'
  | _, _ => false
  end.

(** The own properties of the object [highlighted], in the order in which
    they were added: a language and the number of code units highlighted
    for it. *)
Definition tally := list (jsstring * nat).

(** [highlighted[lang]] on an own property. *)
Fixpoint tally_get (lang : jsstring) (t : tally) : option nat :=
  match t with
  | [] => None
  | (k, n) :: r => if str_eqb k lang then Some n else tally_get lang r
  end.

(** [highlighted[lang] += m] on an own property. *)
Fixpoint tally_add (lang : jsstring) (m : nat) (t : tally) : tally :=
  match t with
  | [] => []
  | (k, n) :: r =>
    if str_eqb k lang then (k, n + m) :: r
    else (k, n) :: tally_add lang m r
  end.

(** The callback given to the Markdown library.  [highlighted] is a plain
    object: once it has an own property named [hasOwnProperty], a number,
    the call of [highlighted.hasOwnProperty] throws; and [__proto__] is
    never an own property, its assignments being taken by the setter of
    the prototype, which ignores numbers and strings. *)
Definition highlight (t : tally) (str lang : jsstring)
  : result (tally * jsstring) :=
  match tally_get (js "hasOwnProperty") t with
  | Some _ => Err TypeError
  | None =>
    let html := highlightSync str (js "source." ++ toLocaleLowerCase lang) in
    if str_eqb lang (js "__proto__") then OK (t, html)
    else
      let t1 :=
        match tally_get lang t with
        | Some _ => t
        | None => t ++ [(lang, 0)]
        end in
      OK (tally_add lang (List.length str) t1, html)
  end.

(** The calls made while a book is rendered, each with the text of a code
    block and its language. *)
Fixpoint highlight_all (calls : list (jsstring * jsstring)) (t : tally)
  : result (tally * list jsstring) :=
  match calls with
  | [] => OK (t, [])
  | (str, lang) :: rest =>
    match highlight t str lang with
    | Err e => Err e
    | OK (t1, html) =>
      match highlight_all rest t1 with
      | Err e => Err e
      | OK (t2, htmls) => OK (t2, html :: htmls)
      end
    end
  end.

(** The number of code units of the code blocks of a language. *)
Fixpoint highlighted_length (lang : jsstring)
  (calls : list (jsstring * jsstring)) : nat :=
  match calls with
  | [] => 0
  | (str, l) :: rest =>
    (if str_eqb l lang then List.length str else 0)
    + highlighted_length lang rest
  end.

Definition uses_language (lang : jsstring)
  (calls : list (jsstring * jsstring)) : bool :=
  existsb (fun c => str_eqb (snd c) lang) calls.

End Highlight.

(** ** The engine *)

Section Engine.

(** What the host and the Markdown library provide:
    [String.prototype.toLocaleLowerCase], [mdIt.render] and
    [mdIt.renderInline]. *)
Variable toLocaleLowerCase : jsstring -> jsstring.
Variable render : jsstring -> jsstring.
Variable renderInline : jsstring -> jsstring.

(** The characters kept by the last replacement of the slug: a-z, 0-9,
    dash and underscore. *)
Definition slug_char (c : char) : bool :=
  ((97 <=? c)%N && (c <=? 122)%N) ||
  ((48 <=? c)%N && (c <=? 57)%N) ||
  (c =? 45)%N || (c =? 95)%N.

Definition spaces_to_dashes (s : jsstring) : jsstring :=
  map (fun c => if char_eqb c c_space then c_dash else c) s.

(** The slug of a title: lower case, spaces replaced by dashes, special
    characters removed. *)
Definition make_slug (title : jsstring) : jsstring :=
  filter slug_char (spaces_to_dashes (toLocaleLowerCase title)).

(** The variables of [build] that the loop over the lines reads and
    writes. *)
Record state := {
  summary : list title_obj;
  sections : list section;
  sectionBuff : list item;
  titleBuff : list jsstring;
  mainTitle : option title_obj;
  lastSlug : jsstring;
  counter : list cell;
  firstSection : bool;
  inCodeBlock : bool
}.

Definition initial : state := {|
  summary := [];
  sections := [];
  sectionBuff := [];
  titleBuff := [];
  mainTitle := None;
  lastSlug := [];
  counter := [Num 0; Num 0; Num 0; Num 0; Num 0];
  firstSection := true;
  inCodeBlock := false
|}.

(** The fence test at the head of the loop body. *)
Definition toggle (inCB : bool) (line : jsstring) : bool :=
  if startsWith fence line then negb inCB else inCB.

(** The condition of the first branch: a title outside a code block. *)
Definition is_title_line (inCB : bool) (line : jsstring) : bool :=
  startsWith hash line && negb (toggle inCB line).

(** The placement checks of the main title. *)
Definition check_main_title (summary : list title_obj) (depth : nat)
  : result unit :=
  match summary with
  | [] => if negb (depth =? 1) then error MAIN_TITLE_NOT_FOUND else OK tt
  | _ :: _ => if depth =? 1 then error DUPLICATE_MAIN_TITLE else OK tt
  end.

(** The section buffer after the title buffer has been rendered into it. *)
Definition flush (sectionBuff : list item) (titleBuff : list jsstring)
  : list item :=
  let html := render (join [c_lf] titleBuff) in
  if trim_nonempty html then sectionBuff ++ [Content html] else sectionBuff.

Definition make_title (title slug : jsstring) (depth : nat)
  (lastSlug : jsstring) (counter : list cell) : title_obj := {|
  text := renderInline title;
  slug := slug;
  depth := depth;
  section_slug := lastSlug;
  is_main_title := depth =? 1;
  is_section := depth =? 2;
  is_subtitle := depth =? 3;
  is_max_subtitle := depth <=? 3;
  is_subsubtitle_or_more := 3 <? depth;
  depth_dec := depth - 1;
  prettydepth := pretty counter depth
|}.

(** The first branch of the loop body, once the title is matched. *)
Definition on_title (st : state) (inCB : bool) (depth : nat)
  (title : jsstring) : result state :=
  let slug := make_slug title in
  match check_main_title (summary st) depth with
  | Err e => Err e
  | OK _ =>
    let sectionBuff1 :=
      if 2 <=? depth then flush (sectionBuff st) (titleBuff st)
      else sectionBuff st in
    let titleBuff1 := if 2 <=? depth then [] else titleBuff st in
    let closes := (depth =? 2) && negb (firstSection st) in
    let sections1 :=
      if closes
      then sections st ++ [{| sec_slug := lastSlug st; content := sectionBuff1 |}]
      else sections st in
    let sectionBuff2 := if closes then [] else sectionBuff1 in
    let firstSection1 := if depth =? 2 then false else firstSection st in
    let lastSlug1 := if depth =? 2 then slug else lastSlug st in
    let counter1 :=
      if negb (depth =? 1) then advance (counter st) depth else counter st in
    let t := make_title title slug depth lastSlug1 counter1 in
    OK {|
      summary := summary st ++ [t];
      sections := sections1;
      sectionBuff := if depth =? 1 then sectionBuff2 else sectionBuff2 ++ [Title t];
      titleBuff := titleBuff1;
      mainTitle := if depth =? 1 then Some t else mainTitle st;
      lastSlug := lastSlug1;
      counter := counter1;
      firstSection := firstSection1;
      inCodeBlock := inCB
    |}
  end.

(** Replacing one field of the state. *)
Definition with_inCodeBlock (st : state) (b : bool) : state := {|
  summary := summary st; sections := sections st;
  sectionBuff := sectionBuff st; titleBuff := titleBuff st;
  mainTitle := mainTitle st; lastSlug := lastSlug st;
  counter := counter st; firstSection := firstSection st;
  inCodeBlock := b |}.

Definition with_titleBuff (st : state) (buff : list jsstring) : state := {|
  summary := summary st; sections := sections st;
  sectionBuff := sectionBuff st; titleBuff := buff;
  mainTitle := mainTitle st; lastSlug := lastSlug st;
  counter := counter st; firstSection := firstSection st;
  inCodeBlock := inCodeBlock st |}.

(** The other two branches: a line outside a section, a line of content. *)
Definition on_content (st : state) (inCB : bool) (line : jsstring)
  : result state :=
  if List.length (summary st) <=? 1 then
    if trim_nonempty line then error CONTENT_OUTSIDE_SECTIONS
    else OK (with_inCodeBlock st inCB)
  else
    OK (with_inCodeBlock (with_titleBuff st (titleBuff st ++ [line])) inCB).

(** One turn of the loop. *)
Definition step (st : state) (line : jsstring) : result state :=
  let inCB := toggle (inCodeBlock st) line in
  if startsWith hash line && negb inCB then
    match title_match line with
    | None => Err TypeError
    | Some (depth, title) => on_title st inCB depth title
    end
  else on_content st inCB line.

(** The loop over the lines. *)
Fixpoint run (lines : list jsstring) (st : state) : result state :=
  match lines with
  | [] => OK st
  | line :: rest =>
    match step st line with
    | OK st' => run rest st'
    | Err e => Err e
    end
  end.

(** The loop over the lines of the source followed by [END_OF_FILE], then
    [summary.pop()]: the values bound to [title], [summary] and [sections]
    in the template. *)
Definition build_lines (lines : list jsstring) : result book :=
  match run (lines ++ [END_OF_FILE]) initial with
  | OK st => OK {|
      title := mainTitle st;
      book_summary := removelast (summary st);
      book_sections := sections st |}
  | Err e => Err e
  end.

(** [source] is the text of the book once its comments have been
    removed. *)
Definition build (source : jsstring) : result book :=
  build_lines (split_lines source).

(** ** Notions used to state the properties *)

(** The number of lines that start with the fence marker. *)
Definition fence_count (lines : list jsstring) : nat :=
  List.length (filter (startsWith fence) lines).

(** The depths of the titles of a document, in order: the length of the run
    of hashes of every line that starts with a hash outside a code block,
    the code-block flag being [inCB] before the first line. *)
Fixpoint title_depths (inCB : bool) (lines : list jsstring) : list nat :=
  match lines with
  | [] => []
  | line :: rest =>
    if is_title_line inCB line
    then run_length c_hash line :: title_depths (toggle inCB line) rest
    else title_depths (toggle inCB line) rest
  end.

(** The labels given to titles of the depths [depths], from the counters
    [counter]. *)
Fixpoint labels (counter : list cell) (depths : list nat) : list jsstring :=
  match depths with
  | [] => []
  | d :: rest =>
    let counter1 := if negb (d =? 1) then advance counter d else counter in
    pretty counter1 d :: labels counter1 rest
  end.

(** The slug of the last title of depth 2 of a summary, the empty string
    when there is none. *)
Definition enclosing_slug (l : list title_obj) : jsstring :=
  fold_left (fun acc t => if depth t =? 2 then slug t else acc) l [].

Definition count_sections (l : list title_obj) : nat :=
  List.length (filter (fun t => depth t =? 2) l).

(** The code units on which every locale lowers as the ASCII table does:
    the ASCII range without the capital I, which Turkic locales lower to a
    dotless i. *)
Definition plain_char (c : char) : bool := is_ascii c && negb (c =? 73)%N.

(** What holds of [sections] between two turns of the loop: nothing before
    the first title of depth 2, then one section less than the titles of
    depth 2 seen. *)
Definition sections_inv (st : state) : Prop :=
  if firstSection st
  then sections st = [] /\ count_sections (summary st) = 0
  else List.length (sections st) + 1 = count_sections (summary st).

(** Every title of a summary records the slug of its section. *)
Definition slugs_inv (l : list title_obj) : Prop :=
  forall pre t post, l = pre ++ t :: post ->
    section_slug t = enclosing_slug (pre ++ [t]).

(** The main title is the first title, and the only one of depth 1. *)
Definition title_inv (st : state) : Prop :=
  match summary st with
  | [] => mainTitle st = None
  | t :: rest =>
    mainTitle st = Some t /\ depth t = 1 /\ section_slug t = [] /\
    Forall (fun u => 2 <= depth u) rest
  end.

(** A code block is only entered once two titles have been seen. *)
Definition code_inv (st : state) : Prop :=
  inCodeBlock st = true -> 2 <= List.length (summary st).

(** [lastSlug] is the slug of the last title of depth 2, and every title
    of the summary records the slug of its section. *)
Definition slug_state_inv (st : state) : Prop :=
  slugs_inv (summary st) /\ lastSlug st = enclosing_slug (summary st).

(** The counters are five numbers, followed by the cells that titles
    deeper than the array may have added. *)
Definition counter_inv (st : state) : Prop :=
  exists ns tail, counter st = map Num ns ++ tail /\ List.length ns = 5.


(** ** Further notions: what the summary and the sections hold *)

(** The lines of a document that the loop takes as titles. *)
Fixpoint title_lines (inCB : bool) (lines : list jsstring) : list jsstring :=
  match lines with
  | [] => []
  | line :: rest =>
    if is_title_line inCB line
    then line :: title_lines (toggle inCB line) rest
    else title_lines (toggle inCB line) rest
  end.

(** Group 2 of the title pattern on a line that matches. *)
Definition title_text (line : jsstring) : jsstring :=
  skip c_space (skip c_hash line).

(** The titles among the entries of a section. *)
Fixpoint titles_of (l : list item) : list title_obj :=
  match l with
  | [] => []
  | Title t :: r => t :: titles_of r
  | Content _ :: r => titles_of r
  end.

Definition is_section_title (t : title_obj) : bool := depth t =? 2.

(** The slugs of the sections closed so far, then the slug of the open
    one, are the slugs of the titles of depth 2. *)
Definition section_slugs_inv (st : state) : Prop :=
  map sec_slug (sections st) ++
    (if firstSection st then [] else [lastSlug st]) =
  map slug (filter is_section_title (summary st)).

(** Every title but the first of the summary is an entry of a closed
    section or of the section buffer, in order. *)
Definition titles_inv (st : state) : Prop :=
  titles_of (flat_map content (sections st)) ++ titles_of (sectionBuff st) =
  tl (summary st).

(** The counter of index 2 counts the titles of depth 2, and the two
    counters before it stay 0. *)
Definition section_counter_inv (st : state) : Prop :=
  exists rest,
    counter st = Num 0 :: Num 0 :: Num (count_sections (summary st)) :: rest.

(** The label of a title of depth 2 is its rank among the titles of
    depth 2. *)
Definition section_labels_inv (l : list title_obj) : Prop :=
  forall pre t post, l = pre ++ t :: post -> depth t = 2 ->
    prettydepth t = number_to_string (S (count_sections pre)) ++ [c_dot].

(** An entry of rendered content holds more than white space. *)
Definition nonblank_item (e : item) : Prop :=
  match e with
  | Title _ => True
  | Content html => trim_nonempty html = true
  end.

Definition content_inv (st : state) : Prop :=
  Forall nonblank_item (sectionBuff st) /\
  Forall (fun s => Forall nonblank_item (content s)) (sections st).


(** ** Removing the comments of the source *)

Definition comment_open : jsstring := js "<!--".
Definition comment_close : jsstring := js "-->".

(** U+2028 and U+2029: the characters that neither [.] nor the line
    breaks listed in the pattern of a comment match. *)
Definition is_separator (c : char) : bool :=
  (c =? 8232)%N || (c =? 8233)%N.

(** The lazy group of the pattern of a comment, read on the text that
    follows the opening marker: the number of characters before the first
    closing marker, [None] when a separator or the end of the text comes
    first. *)
Fixpoint comment_body (s : jsstring) : option nat :=
  match s with
  | [] => None
  | c :: r =>
    if startsWith comment_close s then Some 0
    else if is_separator c then None
    else option_map S (comment_body r)
  end.

(** The length of the comment that starts the text, if one does. *)
Definition comment_length (s : jsstring) : option nat :=
  if startsWith comment_open s
  then option_map (fun n => n + 7) (comment_body (skipn 4 s))
  else None.

(** [source.replace(pattern, '')] with the global pattern of a comment:
    the matches are looked for from left to right and dropped; [skip] is
    the number of characters of the current match still to drop. *)
Fixpoint strip_from (skip : nat) (s : jsstring) : jsstring :=
  match s with
  | [] => []
  | c :: r =>
    match skip with
    | S k => strip_from k r
    | 0 =>
      match comment_length s with
      | Some n => strip_from (n - 1) r
      | None => c :: strip_from 0 r
      end
    end
  end.

Definition strip_comments (source : jsstring) : jsstring :=
  strip_from 0 source.


(** [p] occurs in [s]. *)
Fixpoint occurs (p s : jsstring) : bool :=
  startsWith p s ||
  match s with
  | [] => false
  | _ :: r => occurs p r
  end.

Definition is_newline (c : char) : bool := (c =? 10)%N || (c =? 13)%N.

(** The number of titles of depth 3 since the last title of depth 2. *)
Definition subtitles_since (l : list title_obj) : nat :=
  fold_left (fun acc t => if depth t =? 2 then 0
                          else if depth t =? 3 then S acc else acc) l 0.

(** The counters of index 2 and 3 count the titles of depth 2 and the
    titles of depth 3 of the section that is open. *)
Definition subtitle_counter_inv (st : state) : Prop :=
  exists rest,
    counter st =
    Num 0 :: Num 0 :: Num (count_sections (summary st))
          :: Num (subtitles_since (summary st)) :: rest.

(** The label of a title of depth 3: the rank of its section, if there
    is one, then its rank among the titles of depth 3 of this section. *)
Definition subtitle_label (pre : list title_obj) : jsstring :=
  (if count_sections pre =? 0 then []
   else number_to_string (count_sections pre) ++ [c_dot])
  ++ number_to_string (S (subtitles_since pre)) ++ [c_dot].

Definition subtitle_labels_inv (l : list title_obj) : Prop :=
  forall pre t post, l = pre ++ t :: post -> depth t = 3 ->
    prettydepth t = subtitle_label pre.
(** ** The loop *)

Lemma run_app (a b : list jsstring) (st : state) :
  run (a ++ b) st =
  match run a st with OK st' => run b st' | Err e => Err e end.
Proof.
  revert st; induction a as [|l a IH]; intros st; simpl; [reflexivity|].
  destruct (step st l); [apply IH | reflexivity].
Qed.

Lemma run_cons_err (line : jsstring) (rest : list jsstring) (st : state) e :
  step st line = Err e -> run (line :: rest) st = Err e.
Proof. intros H; simpl; rewrite H; reflexivity. Qed.

(** A turn of the loop that succeeds took the title branch or the content
    branch. *)
Lemma step_inv (st st' : state) (line : jsstring) :
  step st line = OK st' ->
  (is_title_line (inCodeBlock st) line = true /\
   exists d t, title_match line = Some (d, t) /\
               on_title st (toggle (inCodeBlock st) line) d t = OK st') \/
  (is_title_line (inCodeBlock st) line = false /\
   on_content st (toggle (inCodeBlock st) line) line = OK st').
Proof.
  unfold step, is_title_line.
  destruct (startsWith hash line && negb (toggle (inCodeBlock st) line)).
  - destruct (title_match line) as [[d t]|]; [|discriminate].
    intros H; left; split; [reflexivity|]. exists d, t; auto.
  - intros H; right; auto.
Qed.

Lemma title_match_depth (line : jsstring) (d : nat) (t : jsstring) :
  title_match line = Some (d, t) ->
  d = run_length c_hash line /\ 1 <= d /\
  t = skip c_space (skip c_hash line).
Proof.
  unfold title_match.
  destruct (1 <=? run_length c_hash line) eqn:E; simpl; [|discriminate].
  destruct (forallb _ _); [|discriminate].
  intros H; inversion H; subst. apply Nat.leb_le in E. auto.
Qed.

Lemma on_title_inv (st st' : state) (inCB : bool) (d : nat) (t : jsstring) :
  on_title st inCB d t = OK st' ->
  check_main_title (summary st) d = OK tt /\
  let c1 := if negb (d =? 1) then advance (counter st) d else counter st in
  let s1 := if d =? 2 then make_slug t else lastSlug st in
  summary st' = summary st ++ [make_title t (make_slug t) d s1 c1] /\
  counter st' = c1 /\ lastSlug st' = s1 /\ inCodeBlock st' = inCB /\
  firstSection st' = (if d =? 2 then false else firstSection st) /\
  mainTitle st' =
    (if d =? 1 then Some (make_title t (make_slug t) d s1 c1)
     else mainTitle st) /\
  sections st' =
    (if (d =? 2) && negb (firstSection st)
     then sections st ++
          [{| sec_slug := lastSlug st;
              content := if 2 <=? d then flush (sectionBuff st) (titleBuff st)
                         else sectionBuff st |}]
     else sections st).
Proof.
  unfold on_title.
  destruct (check_main_title (summary st) d) as [[]|e]; [|discriminate].
  intros H; inversion H; subst; clear H; simpl. repeat split; reflexivity.
Qed.

Lemma on_content_inv (st st' : state) (inCB : bool) (line : jsstring) :
  on_content st inCB line = OK st' ->
  (List.length (summary st) <= 1 /\ trim_nonempty line = false /\
   st' = with_inCodeBlock st inCB) \/
  (2 <= List.length (summary st) /\
   st' = with_inCodeBlock (with_titleBuff st (titleBuff st ++ [line])) inCB).
Proof.
  unfold on_content.
  destruct (List.length (summary st) <=? 1) eqn:E.
  - apply Nat.leb_le in E. destruct (trim_nonempty line); [discriminate|].
    intros H; inversion H; subst. left; auto.
  - apply Nat.leb_gt in E. intros H; inversion H; subst.
    right; split; [lia|reflexivity].
Qed.

Lemma run_invariant (P : state -> Prop) :
  (forall st line st', P st -> step st line = OK st' -> P st') ->
  forall lines st st', P st -> run lines st = OK st' -> P st'.
Proof.
  intros Hstep lines; induction lines as [|l lines IH]; intros st st' HP H.
  - simpl in H; inversion H; subst; assumption.
  - simpl in H. destruct (step st l) as [st1|e] eqn:E; [|discriminate].
    eapply IH; [|exact H]. eapply Hstep; eauto.
Qed.

(** *** The code-block flag *)

Lemma step_inCodeBlock (st st' : state) (line : jsstring) :
  step st line = OK st' ->
  inCodeBlock st' = toggle (inCodeBlock st) line.
Proof.
  intros H; apply step_inv in H.
  destruct H as [[_ (d & t & _ & H)]|[_ H]].
  - apply on_title_inv in H; simpl in H; tauto.
  - apply on_content_inv in H. destruct H as [(_ & _ & ->)|(_ & ->)]; reflexivity.
Qed.

Lemma fence_count_cons (line : jsstring) (lines : list jsstring) :
  fence_count (line :: lines) =
  (if startsWith fence line then 1 else 0) + fence_count lines.
Proof.
  unfold fence_count; cbn [filter].
  destruct (startsWith fence line); reflexivity.
Qed.

Lemma run_inCodeBlock (lines : list jsstring) (st st' : state) :
  run lines st = OK st' ->
  inCodeBlock st' = xorb (inCodeBlock st) (Nat.odd (fence_count lines)).
Proof.
  revert st; induction lines as [|l lines IH]; intros st H; simpl in H.
  - inversion H; subst. simpl. rewrite xorb_false_r. reflexivity.
  - destruct (step st l) as [st1|e] eqn:E; [|discriminate].
    rewrite (IH _ H), (step_inCodeBlock _ _ _ E), fence_count_cons.
    unfold toggle. destruct (startsWith fence l); simpl.
    + rewrite Nat.odd_succ, <- Nat.negb_odd.
      destruct (inCodeBlock st), (Nat.odd (fence_count lines)); reflexivity.
    + reflexivity.
Qed.

(** A code block only opens once two titles have been seen: before that a
    fence line is content outside a section. *)
Lemma startsWith_cons (a : char) (p s : jsstring) :
  startsWith (a :: p) s = true ->
  exists r, s = a :: r /\ startsWith p r = true.
Proof.
  destruct s as [|b s]; simpl; [discriminate|].
  intros H; apply andb_prop in H as [H1 H2].
  apply N.eqb_eq in H1; subst. eauto.
Qed.

Lemma fence_nonblank (line : jsstring) :
  startsWith fence line = true -> trim_nonempty line = true.
Proof.
  change fence with [96; 96; 96]%N. intros H.
  apply startsWith_cons in H as (r & -> & _). reflexivity.
Qed.

Lemma hash_not_fence (line : jsstring) :
  startsWith hash line = true -> startsWith fence line = false.
Proof.
  change hash with [35]%N. intros H.
  apply startsWith_cons in H as (r & -> & _). reflexivity.
Qed.

Lemma step_summary_grows (st st' : state) (line : jsstring) :
  step st line = OK st' -> List.length (summary st) <= List.length (summary st').
Proof.
  intros H; apply step_inv in H.
  destruct H as [[_ (d & t & _ & H)]|[_ H]].
  - apply on_title_inv in H; simpl in H. destruct H as (_ & -> & _).
    rewrite length_app; lia.
  - apply on_content_inv in H. destruct H as [(_ & _ & ->)|(_ & ->)]; simpl; lia.
Qed.

Lemma step_code_inv (st : state) (line : jsstring) (st' : state) :
  code_inv st -> step st line = OK st' -> code_inv st'.
Proof.
  unfold code_inv; intros Hinv H Hin.
  pose proof (step_summary_grows _ _ _ H) as Hg.
  pose proof (step_inCodeBlock _ _ _ H) as Ht.
  unfold toggle in Ht. destruct (startsWith fence line) eqn:Ef.
  - apply step_inv in H. destruct H as [[Hl _]|[_ H]].
    + unfold is_title_line in Hl. apply andb_prop in Hl as [Hh _].
      rewrite (hash_not_fence _ Hh) in Ef; discriminate.
    + apply on_content_inv in H. destruct H as [(_ & Hb & _)|(? & _)]; [|lia].
      rewrite (fence_nonblank _ Ef) in Hb; discriminate.
  - rewrite Ht in Hin. specialize (Hinv Hin). lia.
Qed.

Lemma run_code_inv (lines : list jsstring) (st : state) :
  run lines initial = OK st -> code_inv st.
Proof.
  apply (run_invariant code_inv step_code_inv).
  unfold code_inv; simpl; discriminate.
Qed.

(** *** The titles of the summary *)

Lemma step_summary (st st' : state) (line : jsstring) :
  step st line = OK st' ->
  (is_title_line (inCodeBlock st) line = true /\
   exists t, summary st' = summary st ++ [t] /\
             depth t = run_length c_hash line /\
             counter st' =
               (if negb (depth t =? 1) then advance (counter st) (depth t)
                else counter st) /\
             prettydepth t = pretty (counter st') (depth t)) \/
  (is_title_line (inCodeBlock st) line = false /\
   summary st' = summary st /\ counter st' = counter st).
Proof.
  intros H; apply step_inv in H.
  destruct H as [[Hl (d & t & Hm & H)]|[Hl H]].
  - left; split; [assumption|].
    apply title_match_depth in Hm as (Hd & _ & _).
    apply on_title_inv in H; simpl in H.
    destruct H as (_ & Hs & Hc & _).
    eexists; split; [exact Hs|]. simpl. rewrite Hc, <- Hd. auto.
  - right; split; [assumption|].
    apply on_content_inv in H.
    destruct H as [(_ & _ & ->)|(_ & ->)]; auto.
Qed.

Lemma run_depths (lines : list jsstring) (st st' : state) :
  run lines st = OK st' ->
  map depth (summary st') =
  map depth (summary st) ++ title_depths (inCodeBlock st) lines.
Proof.
  revert st; induction lines as [|l lines IH]; intros st H; simpl in H.
  - inversion H; subst. simpl. rewrite app_nil_r. reflexivity.
  - destruct (step st l) as [st1|e] eqn:E; [|discriminate].
    rewrite (IH _ H), (step_inCodeBlock _ _ _ E). simpl.
    destruct (step_summary _ _ _ E) as [(-> & t & -> & Hd & _)|(-> & -> & _)].
    + rewrite map_app, <- app_assoc. simpl. rewrite Hd. reflexivity.
    + reflexivity.
Qed.

Lemma run_labels (lines : list jsstring) (st st' : state) :
  run lines st = OK st' ->
  map prettydepth (summary st') =
  map prettydepth (summary st) ++
  labels (counter st) (title_depths (inCodeBlock st) lines).
Proof.
  revert st; induction lines as [|l lines IH]; intros st H; simpl in H.
  - inversion H; subst. simpl. rewrite app_nil_r. reflexivity.
  - destruct (step st l) as [st1|e] eqn:E; [|discriminate].
    rewrite (IH _ H), (step_inCodeBlock _ _ _ E). simpl.
    destruct (step_summary _ _ _ E)
      as [(-> & t & -> & Hd & Hc & Hp)|(-> & -> & ->)].
    + rewrite map_app, <- app_assoc. simpl.
      rewrite Hp, Hc, Hd. reflexivity.
    + reflexivity.
Qed.

(** *** The number of sections *)

Lemma count_sections_app (a b : list title_obj) :
  count_sections (a ++ b) = count_sections a + count_sections b.
Proof. unfold count_sections. rewrite filter_app, length_app. reflexivity. Qed.

Lemma step_sections_inv (st : state) (line : jsstring) (st' : state) :
  sections_inv st -> step st line = OK st' -> sections_inv st'.
Proof.
  unfold sections_inv; intros Hinv H. apply step_inv in H.
  destruct H as [[_ (d & t & _ & H)]|[_ H]].
  - apply on_title_inv in H; simpl in H.
    destruct H as (_ & Hs & _ & _ & _ & Hf & _ & Hsec).
    rewrite Hs, Hf, Hsec, count_sections_app.
    unfold count_sections at 2 4; simpl.
    destruct (d =? 2) eqn:Ed; simpl.
    + destruct (firstSection st); simpl.
      * destruct Hinv as [-> ->]. reflexivity.
      * rewrite length_app; simpl. lia.
    + destruct (firstSection st); simpl.
      * destruct Hinv as [-> ->]. auto.
      * lia.
  - apply on_content_inv in H.
    destruct H as [(_ & _ & ->)|(_ & ->)]; exact Hinv.
Qed.

Lemma run_sections_inv (lines : list jsstring) (st : state) :
  run lines initial = OK st -> sections_inv st.
Proof.
  apply (run_invariant sections_inv step_sections_inv).
  unfold sections_inv; simpl; auto.
Qed.

Lemma count_sections_depths (l : list title_obj) :
  count_sections l = count_occ Nat.eq_dec (map depth l) 2.
Proof.
  unfold count_sections. induction l as [|t l IH]; simpl; [reflexivity|].
  destruct (Nat.eqb_spec (depth t) 2) as [E|E];
    destruct (Nat.eq_dec (depth t) 2); try contradiction; simpl; congruence.
Qed.

(** *** The last turn of the loop, on [END_OF_FILE] *)

Lemma step_end_outside (st : state) :
  inCodeBlock st = false ->
  step st END_OF_FILE = on_title st false 2 (js "END OF FILE").
Proof. intros H. unfold step. rewrite H. reflexivity. Qed.

Lemma step_end_inside (st : state) :
  inCodeBlock st = true ->
  step st END_OF_FILE = on_content st true END_OF_FILE.
Proof. intros H. unfold step. rewrite H. reflexivity. Qed.

Lemma build_lines_inv (lines : list jsstring) (b : book) :
  build_lines lines = OK b ->
  exists st st2,
    run lines initial = OK st /\ step st END_OF_FILE = OK st2 /\
    run (lines ++ [END_OF_FILE]) initial = OK st2 /\
    b = {| title := mainTitle st2;
           book_summary := removelast (summary st2);
           book_sections := sections st2 |}.
Proof.
  unfold build_lines.
  destruct (run (lines ++ [END_OF_FILE]) initial) as [st2|e] eqn:E;
    [|discriminate].
  intros H; inversion H; subst; clear H.
  pose proof E as E'. rewrite run_app in E.
  destruct (run lines initial) as [st|e]; [|discriminate].
  simpl in E. destruct (step st END_OF_FILE) as [st2'|e] eqn:E2; [|discriminate].
  inversion E; subst. exists st, st2. auto.
Qed.

(** What [build_lines] returns, from the state reached on the lines of the
    document: outside a code block [END_OF_FILE] is a title of depth 2,
    which closes the open section and is popped from the summary; inside
    one it is a line of content. *)
Lemma build_lines_cases (lines : list jsstring) (b : book) :
  build_lines lines = OK b ->
  exists st,
    run lines initial = OK st /\
    ((inCodeBlock st = false /\ summary st <> [] /\
      b = {| title := mainTitle st;
             book_summary := summary st;
             book_sections :=
               if firstSection st then sections st
               else sections st ++
                    [{| sec_slug := lastSlug st;
                        content := flush (sectionBuff st) (titleBuff st) |}]
          |}) \/
     (inCodeBlock st = true /\ 2 <= List.length (summary st) /\
      step st END_OF_FILE =
        OK (with_inCodeBlock
              (with_titleBuff st (titleBuff st ++ [END_OF_FILE])) true) /\
      b = {| title := mainTitle st;
             book_summary := removelast (summary st);
             book_sections := sections st |})).
Proof.
  intros H. apply build_lines_inv in H as (st & st2 & Hrun & Hstep & _ & ->).
  exists st; split; [assumption|].
  destruct (inCodeBlock st) eqn:Ein.
  - right. split; [reflexivity|].
    rewrite (step_end_inside _ Ein) in Hstep.
    pose proof Hstep as Hstep'.
    apply on_content_inv in Hstep as [(Hle & Hb & _)|(Hge & ->)].
    + discriminate Hb.
    + rewrite (step_end_inside _ Ein). auto.
  - left. split; [reflexivity|].
    rewrite (step_end_outside _ Ein) in Hstep.
    apply on_title_inv in Hstep; simpl in Hstep.
    destruct Hstep as (Hchk & Hs & _ & _ & _ & _ & Hm & Hsec).
    split.
    + destruct (summary st); [discriminate Hchk|discriminate].
    + rewrite Hs, Hm, Hsec, removelast_last.
      destruct (firstSection st); reflexivity.
Qed.

Lemma count_occ_repeat_two (N : nat) :
  count_occ Nat.eq_dec (1 :: repeat 2 N) 2 = N.
Proof.
  simpl. induction N as [|N IH]; simpl; [reflexivity|]. rewrite IH; reflexivity.
Qed.

Lemma run_initial_depths (lines : list jsstring) (st : state) :
  run lines initial = OK st ->
  map depth (summary st) = title_depths false lines.
Proof. intros H. apply run_depths in H. exact H. Qed.

Lemma run_initial_inCodeBlock (lines : list jsstring) (st : state) :
  run lines initial = OK st ->
  inCodeBlock st = Nat.odd (fence_count lines).
Proof. intros H. apply run_inCodeBlock in H. exact H. Qed.

(** C1. A document that builds, whose titles outside code blocks are one
    title of depth 1 followed by [N] titles of depth 2, and whose fence
    lines are paired, yields exactly [N] sections. *)
Theorem sections_length (lines : list jsstring) (b : book) (N : nat)
  (Hvalid : build_lines lines = OK b)
  (Htitles : title_depths false lines = 1 :: repeat 2 N)
  (Hfences : Nat.even (fence_count lines) = true) :
  List.length (book_sections b) = N.
Proof.
  apply build_lines_cases in Hvalid as (st & Hrun & Hcase).
  pose proof (run_initial_inCodeBlock _ _ Hrun) as Hin.
  rewrite <- Nat.negb_even, Hfences in Hin; simpl in Hin.
  destruct Hcase as [(_ & _ & ->)|(Hin' & _)]; [|congruence].
  pose proof (run_sections_inv _ _ Hrun) as Hinv.
  unfold sections_inv in Hinv.
  rewrite count_sections_depths, (run_initial_depths _ _ Hrun), Htitles,
    count_occ_repeat_two in Hinv.
  simpl. destruct (firstSection st).
  - destruct Hinv as [-> HN]. simpl. congruence.
  - rewrite length_app; simpl. exact Hinv.
Qed.

(** C5. Whatever [build_lines] returns was made from the lines of the
    document, not from [END_OF_FILE]: the summary is the summary reached on
    the document's own lines (less its last title when a code block is left
    open), and every section was either closed before [END_OF_FILE] was
    read or is the section then open, whose entries are the entries
    buffered so far and the rendering of the lines buffered so far. *)
Theorem end_of_file_not_emitted (lines : list jsstring) (b : book)
  (Hbuilt : build_lines lines = OK b) :
  exists st,
    run lines initial = OK st /\
    book_summary b =
      (if inCodeBlock st then removelast (summary st) else summary st) /\
    book_sections b =
      (if inCodeBlock st || firstSection st then sections st
       else sections st ++
            [{| sec_slug := lastSlug st;
                content := flush (sectionBuff st) (titleBuff st) |}]) /\
    (forall t, In t (book_summary b) -> In t (summary st)) /\
    (forall s e, In s (book_sections b) -> In e (content s) ->
       In s (sections st) \/ In e (sectionBuff st) \/
       e = Content (render (join [c_lf] (titleBuff st)))).
Proof.
  apply build_lines_cases in Hbuilt as (st & Hrun & Hcase).
  exists st; split; [assumption|].
  destruct Hcase as [(Hin & _ & ->)|(Hin & Hlen & _ & ->)]; rewrite Hin; simpl.
  - repeat split; try tauto.
    intros s e Hs He. destruct (firstSection st); [auto|].
    apply in_app_or in Hs as [Hs|[<-|[]]]; [auto|]. right.
    simpl in He. unfold flush in He.
    destruct (trim_nonempty _); [|auto].
    apply in_app_or in He as [He|[<-|[]]]; auto.
  - repeat split; auto.
    intros t Ht. destruct (summary st) as [|x l]; [destruct Ht|].
    destruct (exists_last (l := x :: l)) as (l' & a & E); [discriminate|].
    rewrite E in *. rewrite removelast_last in Ht.
    apply in_or_app; auto.
Qed.

(** C10. When the lines of a document are all read without error and an
    odd number of them start with the fence marker, [END_OF_FILE] is read
    inside the code block left open and only joins the buffered lines; the
    summary reached on the document ends with a title of the document,
    which the final [pop] removes, and the sections are those closed so
    far: the open one is not appended. *)
Theorem unclosed_fence_drops_last_title (lines : list jsstring) (st : state)
  (Hrun : run lines initial = OK st)
  (Hodd : Nat.odd (fence_count lines) = true) :
  step st END_OF_FILE =
    OK (with_inCodeBlock
          (with_titleBuff st (titleBuff st ++ [END_OF_FILE])) true) /\
  exists kept last,
    summary st = kept ++ [last] /\ kept <> [] /\
    build_lines lines =
      OK {| title := mainTitle st;
            book_summary := kept;
            book_sections := sections st |}.
Proof.
  pose proof (run_initial_inCodeBlock _ _ Hrun) as Hin. rewrite Hodd in Hin.
  pose proof (run_code_inv _ _ Hrun Hin) as Hlen.
  assert (Hstep : step st END_OF_FILE =
    OK (with_inCodeBlock
          (with_titleBuff st (titleBuff st ++ [END_OF_FILE])) true)).
  { rewrite (step_end_inside _ Hin). unfold on_content.
    destruct (Nat.leb_spec (List.length (summary st)) 1); [lia|reflexivity]. }
  split; [exact Hstep|].
  destruct (exists_last (l := summary st)) as (kept & last & E).
  { intros E; rewrite E in Hlen; simpl in Hlen; lia. }
  exists kept, last. split; [exact E|]. split.
  { intros ->. rewrite E in Hlen; simpl in Hlen; lia. }
  unfold build_lines. rewrite run_app, Hrun. simpl. rewrite Hstep. simpl.
  rewrite E, removelast_last. reflexivity.
Qed.

(** *** Errors *)

Lemma step_title_line (st : state) (line : jsstring) (d : nat) (t : jsstring) :
  is_title_line (inCodeBlock st) line = true ->
  title_match line = Some (d, t) ->
  step st line = on_title st (toggle (inCodeBlock st) line) d t.
Proof.
  unfold step, is_title_line. intros -> ->. reflexivity.
Qed.

Lemma step_content_line (st : state) (line : jsstring) :
  is_title_line (inCodeBlock st) line = false ->
  step st line = on_content st (toggle (inCodeBlock st) line) line.
Proof.
  unfold step, is_title_line. intros ->. reflexivity.
Qed.

Lemma build_lines_err (lines pre post : list jsstring) (line : jsstring)
  (st : state) (e : failure) :
  lines ++ [END_OF_FILE] = pre ++ line :: post ->
  run pre initial = OK st ->
  step st line = Err e ->
  build_lines lines = Err e.
Proof.
  intros Hsplit Hpre Hstep. unfold build_lines.
  rewrite Hsplit, run_app, Hpre, (run_cons_err _ _ _ _ Hstep). reflexivity.
Qed.

(** A line that starts with a hash outside a code block and does not
    match the pattern, because a line terminator follows the hashes, stops
    the build: the groups of a [null] match are read. *)
Lemma title_line_without_match (st : state) (line : jsstring) :
  is_title_line (inCodeBlock st) line = true ->
  title_match line = None ->
  step st line = Err TypeError.
Proof.
  unfold step, is_title_line. intros -> ->. reflexivity.
Qed.

(** C4. When the loop reaches a title while the summary is empty and its
    depth is not 1, the build ends with the error of the missing main
    title; when it reaches a title of depth 1 while the summary is not
    empty, it ends with the error of the duplicate main title.  In both
    cases [build_lines] returns no book. *)
Theorem main_title_errors (lines pre post : list jsstring) (line : jsstring)
  (st : state) (d : nat) (t : jsstring)
  (Hsplit : lines ++ [END_OF_FILE] = pre ++ line :: post)
  (Hpre : run pre initial = OK st)
  (Htitle : is_title_line (inCodeBlock st) line = true)
  (Hmatch : title_match line = Some (d, t)) :
  (summary st = [] -> d <> 1 ->
   build_lines lines = Err (Exit MAIN_TITLE_NOT_FOUND)) /\
  (summary st <> [] -> d = 1 ->
   build_lines lines = Err (Exit DUPLICATE_MAIN_TITLE)).
Proof.
  split; intros Hs Hd; apply (build_lines_err _ _ _ _ _ _ Hsplit Hpre);
    rewrite (step_title_line _ _ _ _ Htitle Hmatch); unfold on_title,
    check_main_title.
  - rewrite Hs. apply Nat.eqb_neq in Hd. rewrite Hd. reflexivity.
  - destruct (summary st); [contradiction|]. subst d. reflexivity.
Qed.

Lemma with_inCodeBlock_same (st : state) :
  with_inCodeBlock st (inCodeBlock st) = st.
Proof. destruct st; reflexivity. Qed.

(** C7. When the loop reaches a line that is not a title while the summary
    has at most one entry, a line that is not blank ends the build with
    the error of content outside sections, and a blank line is accepted:
    the loop goes on from the same state. *)
Theorem content_outside_sections (lines pre post : list jsstring)
  (line : jsstring) (st : state)
  (Hsplit : lines ++ [END_OF_FILE] = pre ++ line :: post)
  (Hpre : run pre initial = OK st)
  (Hsummary : List.length (summary st) <= 1)
  (Hcontent : is_title_line (inCodeBlock st) line = false) :
  (trim_nonempty line = true ->
   build_lines lines = Err (Exit CONTENT_OUTSIDE_SECTIONS)) /\
  (trim_nonempty line = false ->
   step st line = OK st /\
   run (pre ++ line :: post) initial = run post st).
Proof.
  apply Nat.leb_le in Hsummary.
  assert (Hstep : trim_nonempty line = false -> step st line = OK st).
  { intros Hb. rewrite (step_content_line _ _ Hcontent). unfold on_content.
    rewrite Hsummary, Hb. unfold toggle.
    destruct (startsWith fence line) eqn:Ef.
    - rewrite (fence_nonblank _ Ef) in Hb; discriminate.
    - fold (with_inCodeBlock st (inCodeBlock st)).
      rewrite with_inCodeBlock_same. reflexivity. }
  split; intros Hb.
  - apply (build_lines_err _ _ _ _ _ _ Hsplit Hpre).
    rewrite (step_content_line _ _ Hcontent). unfold on_content.
    rewrite Hsummary, Hb. reflexivity.
  - split; [auto|]. rewrite run_app, Hpre. simpl. rewrite (Hstep Hb).
    reflexivity.
Qed.

(** C8. A line that starts with a hash and is read inside a code block
    (an odd number of fence lines came before it) is not a title: the turn
    of the loop succeeds, leaves the summary, the sections and the section
    buffer as they were, and appends the line to the buffered content.  A
    fence line is not a title either: whatever the state, a turn on a
    fence line that succeeds leaves the summary, the sections, the section
    buffer and the counters as they were. *)
Theorem no_title_inside_code_block (pre : list jsstring) (st : state)
  (line : jsstring)
  (Hpre : run pre initial = OK st)
  (Hinside : Nat.odd (fence_count pre) = true)
  (Hhash : startsWith hash line = true) :
  (exists st',
     step st line = OK st' /\
     summary st' = summary st /\ sections st' = sections st /\
     sectionBuff st' = sectionBuff st /\ counter st' = counter st /\
     titleBuff st' = titleBuff st ++ [line] /\ inCodeBlock st' = true) /\
  (forall (st0 st1 : state) (fenceline : jsstring),
     startsWith fence fenceline = true ->
     is_title_line (inCodeBlock st0) fenceline = false /\
     (step st0 fenceline = OK st1 ->
      summary st1 = summary st0 /\ sections st1 = sections st0 /\
      sectionBuff st1 = sectionBuff st0 /\ counter st1 = counter st0)).
Proof.
  pose proof (run_initial_inCodeBlock _ _ Hpre) as Hin. rewrite Hinside in Hin.
  pose proof (run_code_inv _ _ Hpre Hin) as Hlen.
  split.
  - assert (Ht : toggle (inCodeBlock st) line = true).
    { unfold toggle. rewrite (hash_not_fence _ Hhash). exact Hin. }
    eexists. split.
    + rewrite step_content_line.
      * unfold on_content. rewrite Ht.
        destruct (Nat.leb_spec (List.length (summary st)) 1); [lia|].
        reflexivity.
      * unfold is_title_line. rewrite Ht, Hhash. reflexivity.
    + simpl. repeat split; reflexivity.
  - intros st0 st1 fl Hf.
    assert (Hnt : is_title_line (inCodeBlock st0) fl = false).
    { unfold is_title_line.
      destruct (startsWith hash fl) eqn:Eh; [|reflexivity].
      rewrite (hash_not_fence _ Eh) in Hf; discriminate. }
    split; [exact Hnt|].
    rewrite (step_content_line _ _ Hnt). intros H.
    apply on_content_inv in H as [(_ & _ & ->)|(_ & ->)]; simpl; auto.
Qed.

Lemma forallb_skip (P : char -> bool) (c : char) (s : jsstring) :
  forallb P s = true -> forallb P (skip c s) = true.
Proof.
  induction s as [|a s IH]; simpl; [auto|].
  intros H. destruct (char_eqb a c); [|exact H].
  apply andb_prop in H as [_ H]. auto.
Qed.

Lemma run_length_hash (line : jsstring) :
  startsWith hash line = true -> 1 <= run_length c_hash line.
Proof.
  change hash with [c_hash]. intros H.
  apply startsWith_cons in H as (r & -> & _). simpl. lia.
Qed.

(** C3, as the code has it.  Outside a code block every line that starts
    with a hash and holds no line terminator matches the title pattern,
    which asks for no space after the hashes: the line is a title whose
    depth is the length of the run of hashes and whose text is what
    follows the hashes and the spaces; when the checks of the main title
    pass, it adds that title to the summary. *)
Theorem hash_line_is_title (st : state) (line : jsstring)
  (Houtside : inCodeBlock st = false)
  (Hhash : startsWith hash line = true)
  (Hterm : forallb (fun c => negb (is_line_terminator c)) line = true) :
  let d := run_length c_hash line in
  let rest := skip c_space (skip c_hash line) in
  1 <= d /\
  title_match line = Some (d, rest) /\
  step st line = on_title st false d rest /\
  (check_main_title (summary st) d = OK tt ->
   exists st' t,
     step st line = OK st' /\ summary st' = summary st ++ [t] /\
     depth t = d /\ text t = renderInline rest).
Proof.
  intros d rest.
  pose proof (run_length_hash _ Hhash) as Hd.
  assert (Hm : title_match line = Some (d, rest)).
  { unfold title_match. fold d rest.
    destruct (Nat.leb_spec 1 d); [|lia]. simpl.
    unfold rest. rewrite forallb_skip; [reflexivity|].
    apply forallb_skip. exact Hterm. }
  assert (Ht : toggle (inCodeBlock st) line = false).
  { unfold toggle. rewrite (hash_not_fence _ Hhash). exact Houtside. }
  assert (Hs : step st line = on_title st false d rest).
  { rewrite <- Ht. apply step_title_line; [|exact Hm].
    unfold is_title_line. rewrite Ht, Hhash. reflexivity. }
  repeat split; try assumption.
  intros Hchk. rewrite Hs. unfold on_title. rewrite Hchk.
  eexists. eexists. split; [reflexivity|]. simpl. auto.
Qed.

(** *** Section slugs *)

Lemma enclosing_slug_snoc (l : list title_obj) (t : title_obj) :
  enclosing_slug (l ++ [t]) =
  if depth t =? 2 then slug t else enclosing_slug l.
Proof. unfold enclosing_slug. rewrite fold_left_app. reflexivity. Qed.

Lemma enclosing_slug_last_section (before between : list title_obj)
  (s : title_obj) :
  depth s = 2 -> Forall (fun u => depth u <> 2) between ->
  enclosing_slug (before ++ s :: between) = slug s.
Proof.
  intros Hs. induction between as [|u between IH] using rev_ind; intros Hb.
  - rewrite enclosing_slug_snoc, Hs. reflexivity.
  - apply Forall_app in Hb as [Hb Hu]. inversion Hu as [|? ? Hu' _]; subst.
    change (before ++ s :: between ++ [u])
      with (before ++ (s :: between) ++ [u]).
    rewrite app_assoc, enclosing_slug_snoc.
    apply Nat.eqb_neq in Hu'. rewrite Hu'. auto.
Qed.

Lemma snoc_split {A : Type} (l pre post : list A) (t x : A) :
  l ++ [t] = pre ++ x :: post ->
  (post = [] /\ pre = l /\ x = t) \/
  (exists post', post = post' ++ [t] /\ l = pre ++ x :: post').
Proof.
  induction post as [|y post0 _] using rev_ind; intros H.
  - left. apply app_inj_tail in H as [-> ->]. auto.
  - right. exists post0.
    change (pre ++ x :: post0 ++ [y]) with (pre ++ (x :: post0) ++ [y]) in H.
    rewrite app_assoc in H. apply app_inj_tail in H as [-> ->]. auto.
Qed.

Lemma slugs_inv_snoc (l : list title_obj) (t : title_obj) :
  slugs_inv l -> section_slug t = enclosing_slug (l ++ [t]) ->
  slugs_inv (l ++ [t]).
Proof.
  intros Hl Ht pre x post E.
  apply snoc_split in E as [(-> & -> & ->)|(post' & -> & ->)].
  - exact Ht.
  - eapply Hl. reflexivity.
Qed.

Lemma slugs_inv_prefix (a b : list title_obj) :
  slugs_inv (a ++ b) -> slugs_inv a.
Proof.
  intros H pre x post ->. apply (H pre x (post ++ b)).
  rewrite <- app_assoc. reflexivity.
Qed.

Lemma step_slug_state_inv (st : state) (line : jsstring) (st' : state) :
  slug_state_inv st -> step st line = OK st' -> slug_state_inv st'.
Proof.
  unfold slug_state_inv. intros [Hl Hs] H. apply step_inv in H.
  destruct H as [[_ (d & t & _ & H)]|[_ H]].
  - apply on_title_inv in H; simpl in H.
    destruct H as (_ & Hsum & _ & Hls & _).
    rewrite Hsum, Hls, enclosing_slug_snoc. simpl. rewrite <- Hs.
    split; [|reflexivity].
    apply slugs_inv_snoc; [assumption|].
    rewrite enclosing_slug_snoc. simpl. rewrite <- Hs. reflexivity.
  - apply on_content_inv in H.
    destruct H as [(_ & _ & ->)|(_ & ->)]; simpl; auto.
Qed.

Lemma step_title_inv (st : state) (line : jsstring) (st' : state) :
  slug_state_inv st /\ title_inv st -> step st line = OK st' ->
  slug_state_inv st' /\ title_inv st'.
Proof.
  intros [Hs Ht] H. split; [eapply step_slug_state_inv; eauto|].
  destruct Hs as [_ Hs]. unfold title_inv in *. apply step_inv in H.
  destruct H as [[_ (d & t & Hm & H)]|[_ H]].
  - apply title_match_depth in Hm as (_ & Hd & _).
    apply on_title_inv in H; simpl in H.
    destruct H as (Hchk & Hsum & _ & _ & _ & _ & Hmt & _).
    rewrite Hsum, Hmt. unfold check_main_title in Hchk.
    destruct (summary st) as [|x rest]; simpl.
    + destruct (Nat.eqb_spec d 1) as [->|]; [|discriminate]. simpl.
      repeat split; auto.
    + destruct (Nat.eqb_spec d 1) as [|Hne]; [discriminate|].
      destruct Ht as (Hx & Hdx & Hsx & Hrest). repeat split; auto.
      apply Forall_app; split; [assumption|].
      constructor; [simpl; lia|constructor].
  - apply on_content_inv in H.
    destruct H as [(_ & _ & ->)|(_ & ->)]; simpl; auto.
Qed.

Lemma run_title_inv (lines : list jsstring) (st : state) :
  run lines initial = OK st -> slug_state_inv st /\ title_inv st.
Proof.
  apply (run_invariant (fun st => slug_state_inv st /\ title_inv st)
           step_title_inv).
  split; [split|]; simpl; try reflexivity.
  intros pre t post E. destruct pre; discriminate.
Qed.

(** The summary of the book is a prefix of the summary reached on the
    lines of the document, and is not empty. *)
Lemma build_lines_summary (lines : list jsstring) (b : book) :
  build_lines lines = OK b ->
  exists st dropped,
    run lines initial = OK st /\ title b = mainTitle st /\
    summary st = book_summary b ++ dropped /\ book_summary b <> [].
Proof.
  intros H. apply build_lines_cases in H as (st & Hrun & Hcase).
  exists st. destruct Hcase as [(_ & Hne & ->)|(_ & Hlen & _ & ->)]; simpl.
  - exists []. rewrite app_nil_r. auto.
  - destruct (exists_last (l := summary st)) as (kept & last & E).
    { intros E; rewrite E in Hlen; simpl in Hlen; lia. }
    exists [last]. rewrite E, removelast_last. repeat split; auto.
    intros ->. rewrite E in Hlen; simpl in Hlen; lia.
Qed.

(** C9. In every book that is built, the main title is recorded with the
    empty string as the slug of its section; every title of depth 2 of the
    summary has its own slug as the slug of its section; and every title
    of depth 3 or more has the slug of the last title of depth 2 that
    comes before it in the summary. *)
Theorem section_slug_of_titles (lines : list jsstring) (b : book)
  (Hbuilt : build_lines lines = OK b) :
  (exists t0 rest,
     title b = Some t0 /\ book_summary b = t0 :: rest /\
     depth t0 = 1 /\ section_slug t0 = []) /\
  (forall pre t post, book_summary b = pre ++ t :: post ->
     (depth t = 2 -> section_slug t = slug t) /\
     (3 <= depth t ->
      forall before s between,
        pre = before ++ s :: between -> depth s = 2 ->
        Forall (fun u => depth u <> 2) between ->
        section_slug t = slug s)).
Proof.
  apply build_lines_summary in Hbuilt
    as (st & dropped & Hrun & Htitle & Hsum & Hne).
  destruct (run_title_inv _ _ Hrun) as [[Hslugs _] Ht].
  rewrite Hsum in Hslugs. apply slugs_inv_prefix in Hslugs.
  split.
  - unfold title_inv in Ht. rewrite Hsum in Ht.
    destruct (book_summary b) as [|t0 rest]; [contradiction|].
    simpl in Ht. destruct Ht as (Hm & Hd & Hs & _).
    exists t0, rest. rewrite Htitle. auto.
  - intros pre t post E. specialize (Hslugs pre t post E).
    rewrite enclosing_slug_snoc in Hslugs. split.
    + intros Hd. rewrite Hd in Hslugs. exact Hslugs.
    + intros Hd before s between -> Hs Hb.
      destruct (Nat.eqb_spec (depth t) 2) as [E2|_]; [lia|].
      rewrite Hslugs. apply enclosing_slug_last_section; assumption.
Qed.

(** *** Counters *)

Lemma nth_map_zero (r : list nat) (i : nat) :
  nth i (map (fun _ => 0) r) 0 = 0.
Proof.
  revert i; induction r as [|n r IH]; intros [|i]; simpl; auto.
Qed.

Lemma counter_incr_num (ns : list nat) (d : nat) :
  d < List.length ns ->
  exists ns',
    counter_incr (map Num ns) d = map Num ns' /\
    List.length ns' = List.length ns /\
    nth d ns' 0 = S (nth d ns 0) /\
    (forall i, i <> d -> nth i ns' 0 = nth i ns 0).
Proof.
  revert d; induction ns as [|n ns IH]; intros d Hd; simpl in Hd; [lia|].
  destruct d as [|d].
  - exists (S n :: ns). simpl. repeat split; auto.
    intros [|i] Hi; [contradiction|reflexivity].
  - destruct (IH d) as (ns' & E & Hl & Hn & Ho); [lia|].
    exists (n :: ns'). simpl. rewrite E. repeat split; auto.
    intros [|i] Hi; [reflexivity|]. apply Ho. lia.
Qed.

Lemma counter_reset_num (ns : list nat) (d : nat) :
  exists ns',
    counter_reset (map Num ns) d = map Num ns' /\
    List.length ns' = List.length ns /\
    (forall i, i <= d -> nth i ns' 0 = nth i ns 0) /\
    (forall i, d < i -> nth i ns' 0 = 0).
Proof.
  revert d; induction ns as [|n ns IH]; intros d.
  - exists []. simpl. repeat split; auto. intros [|i]; reflexivity.
  - destruct d as [|d].
    + exists (n :: map (fun _ => 0) ns). simpl. rewrite !map_map.
      repeat split.
      * rewrite length_map. reflexivity.
      * intros i Hi. replace i with 0 by lia. reflexivity.
      * intros [|i] Hi; [lia|]. apply nth_map_zero.
    + destruct (IH d) as (ns' & E & Hl & Hk & Hz).
      exists (n :: ns'). simpl. rewrite E. repeat split; auto.
      * intros [|i] Hi; [reflexivity|]. apply Hk. lia.
      * intros [|i] Hi; [lia|]. apply Hz. lia.
Qed.

(** On counters that are numbers, at a depth within the array, [advance]
    adds one to the counter of the depth, clears the counters after it and
    keeps those before it. *)
Lemma advance_num (ns : list nat) (d : nat) :
  d < List.length ns ->
  exists ns',
    advance (map Num ns) d = map Num ns' /\
    List.length ns' = List.length ns /\
    nth d ns' 0 = S (nth d ns 0) /\
    (forall i, i < d -> nth i ns' 0 = nth i ns 0) /\
    (forall i, d < i -> nth i ns' 0 = 0).
Proof.
  intros Hd. unfold advance.
  destruct (counter_incr_num ns d Hd) as (n1 & E1 & L1 & D1 & O1).
  destruct (counter_reset_num n1 d) as (n2 & E2 & L2 & K2 & Z2).
  exists n2. rewrite E1, E2. repeat split; auto.
  - congruence.
  - rewrite K2 by lia. exact D1.
  - intros i Hi. rewrite K2 by lia. apply O1. lia.
Qed.

Lemma counter_label_num (ns : list nat) :
  counter_label (map Num ns) =
  join [c_dot] (map number_to_string (filter (fun n => 0 <? n) ns)) ++ [c_dot].
Proof.
  unfold counter_label. f_equal. f_equal.
  induction ns as [|n ns IH]; simpl; [reflexivity|].
  destruct (0 <? n); simpl; rewrite IH; reflexivity.
Qed.

Lemma counter_incr_length (a : list cell) (d : nat) :
  d < List.length a -> List.length (counter_incr a d) = List.length a.
Proof.
  revert d; induction a as [|c a IH]; intros d Hd; simpl in Hd; [lia|].
  destruct d as [|d]; simpl; [reflexivity|]. rewrite IH by lia. reflexivity.
Qed.

Lemma counter_incr_app_low (a b : list cell) (d : nat) :
  d < List.length a -> counter_incr (a ++ b) d = counter_incr a d ++ b.
Proof.
  revert d; induction a as [|c a IH]; intros d Hd; simpl in Hd; [lia|].
  destruct d as [|d]; simpl; [reflexivity|]. rewrite IH by lia. reflexivity.
Qed.

Lemma counter_incr_app_high (a b : list cell) (d : nat) :
  List.length a <= d ->
  counter_incr (a ++ b) d = a ++ counter_incr b (d - List.length a).
Proof.
  revert d; induction a as [|c a IH]; intros d Hd; simpl in *.
  - rewrite Nat.sub_0_r. reflexivity.
  - destruct d as [|d]; [lia|]. simpl. rewrite IH by lia. reflexivity.
Qed.

Lemma counter_reset_app_low (a b : list cell) (d : nat) :
  d < List.length a ->
  counter_reset (a ++ b) d = counter_reset a d ++ map (fun _ => Num 0) b.
Proof.
  revert d; induction a as [|c a IH]; intros d Hd; simpl in Hd; [lia|].
  destruct d as [|d]; simpl.
  - rewrite map_app. reflexivity.
  - rewrite IH by lia. reflexivity.
Qed.

Lemma counter_reset_app_high (a b : list cell) (d : nat) :
  List.length a <= d ->
  counter_reset (a ++ b) d = a ++ counter_reset b (d - List.length a).
Proof.
  revert d; induction a as [|c a IH]; intros d Hd; simpl in *.
  - rewrite Nat.sub_0_r. reflexivity.
  - destruct d as [|d]; [lia|]. simpl. rewrite IH by lia. reflexivity.
Qed.

(** The same below the end of a prefix of numbers, whatever cells follow
    it: they are all cleared. *)
Lemma advance_low (ns : list nat) (tail : list cell) (d : nat) :
  d < List.length ns ->
  exists ns',
    advance (map Num ns ++ tail) d =
      map Num ns' ++ map (fun _ => Num 0) tail /\
    List.length ns' = List.length ns /\
    nth d ns' 0 = S (nth d ns 0) /\
    (forall i, i < d -> nth i ns' 0 = nth i ns 0) /\
    (forall i, d < i -> nth i ns' 0 = 0).
Proof.
  intros Hd.
  destruct (advance_num ns d Hd) as (ns' & E & Hl & Hn & Hk & Hz).
  exists ns'. split; [|auto]. unfold advance in *.
  rewrite counter_incr_app_low by (rewrite length_map; exact Hd).
  rewrite counter_reset_app_low
    by (rewrite counter_incr_length; rewrite length_map; exact Hd).
  rewrite E. reflexivity.
Qed.

Lemma advance_high (ns : list nat) (tail : list cell) (d : nat) :
  List.length ns <= d ->
  exists tail', advance (map Num ns ++ tail) d = map Num ns ++ tail'.
Proof.
  intros Hd. unfold advance.
  rewrite counter_incr_app_high by (rewrite length_map; exact Hd).
  rewrite counter_reset_app_high by (rewrite length_map; exact Hd).
  eexists. reflexivity.
Qed.

Lemma step_counter_inv (st : state) (line : jsstring) (st' : state) :
  counter_inv st -> step st line = OK st' -> counter_inv st'.
Proof.
  unfold counter_inv. intros (ns & tail & E & Hl) H.
  destruct (step_summary _ _ _ H) as [(_ & t & _ & _ & Hc & _)|(_ & _ & Hc)];
    rewrite Hc; [|eauto].
  destruct (negb (depth t =? 1)); [|eauto]. rewrite E.
  destruct (Nat.lt_ge_cases (depth t) (List.length ns)) as [Hd|Hd].
  - destruct (advance_low ns tail _ Hd) as (ns' & E' & Hl' & _).
    rewrite E'. exists ns'. eexists. split; [reflexivity|congruence].
  - destruct (advance_high ns tail _ Hd) as (tail' & E').
    rewrite E'. eauto.
Qed.

Lemma run_counter_inv (lines : list jsstring) (st : state) :
  run lines initial = OK st -> counter_inv st.
Proof.
  apply (run_invariant counter_inv step_counter_inv).
  exists [0; 0; 0; 0; 0], []. split; reflexivity.
Qed.

Lemma counter_label_low (ns : list nat) (tail : list cell) :
  counter_label (map Num ns ++ map (fun _ => Num 0) tail) =
  join [c_dot] (map number_to_string (filter (fun n => 0 <? n) ns)) ++ [c_dot].
Proof.
  rewrite <- counter_label_num. unfold counter_label.
  rewrite filter_app.
  replace (filter positive (map (fun _ => Num 0) tail)) with (@nil cell).
  - rewrite app_nil_r. reflexivity.
  - induction tail as [|c tail IH]; simpl; auto.
Qed.

(** C2, as the code has it.  In every state the loop reaches, the counters
    are five numbers, followed by the cells that titles deeper than 4 may
    have added.  A title of depth [d] from 2 to 4 adds one to the counter
    of index [d], sets every counter of a greater index to 0 and keeps the
    others; its label joins with dots the counters that are not 0, in the
    order of the indices, and ends with a dot.  A title of depth 1 changes
    no counter and has the label "0.".  The titles of a document whose
    depths are 1, 2, 3, 2, 3, 3 are labelled "0.", "1.", "1.1.", "2.",
    "2.1.", "2.2.". *)
Theorem numbering_labels (pre lines : list jsstring) (st st' reached : state)
  (inCB : bool) (name : jsstring) (d : nat)
  (Hpre : run pre initial = OK st)
  (Hdepth : 2 <= d <= 4)
  (Htitle : on_title st inCB d name = OK st')
  (Hrun : run lines initial = OK reached)
  (Hdepths : title_depths false lines = [1; 2; 3; 2; 3; 3]) :
  (exists ns ns' tail t,
     counter st = map Num ns ++ tail /\
     counter st' = map Num ns' ++ map (fun _ => Num 0) tail /\
     List.length ns = 5 /\ List.length ns' = 5 /\
     nth d ns' 0 = S (nth d ns 0) /\
     (forall i, i < d -> nth i ns' 0 = nth i ns 0) /\
     (forall i, d < i -> nth i ns' 0 = 0) /\
     summary st' = summary st ++ [t] /\ depth t = d /\
     prettydepth t =
       join [c_dot] (map number_to_string (filter (fun n => 0 <? n) ns'))
       ++ [c_dot]) /\
  (forall (st0 st1 : state) (inCB0 : bool) (name0 : jsstring),
     on_title st0 inCB0 1 name0 = OK st1 ->
     counter st1 = counter st0 /\
     exists t, summary st1 = summary st0 ++ [t] /\ depth t = 1 /\
               prettydepth t = js "0.") /\
  map prettydepth (summary reached) =
    [js "0."; js "1."; js "1.1."; js "2."; js "2.1."; js "2.2."].
Proof.
  split; [|split].
  - destruct (run_counter_inv _ _ Hpre) as (ns & tail & E & Hl).
    apply on_title_inv in Htitle; simpl in Htitle.
    destruct Htitle as (_ & Hs & Hc & _).
    destruct (Nat.eqb_spec d 1) as [|_]; [lia|]. simpl in Hs, Hc.
    destruct (advance_low ns tail d) as (ns' & E' & Hl' & Hn & Hk & Hz); [lia|].
    rewrite E, E' in Hs, Hc.
    exists ns, ns', tail. eexists.
    repeat split; try eassumption; try reflexivity; try congruence.
    simpl. unfold pretty. destruct (Nat.eqb_spec d 1) as [|_]; [lia|].
    apply counter_label_low.
  - intros st0 st1 inCB0 name0 H.
    apply on_title_inv in H; simpl in H. destruct H as (_ & Hs & Hc & _).
    split; [exact Hc|]. eexists. split; [exact Hs|]. split; reflexivity.
  - rewrite (run_labels _ _ _ Hrun). simpl. rewrite Hdepths. reflexivity.
Qed.

(** *** Slugs *)

Lemma slug_char_plain (c : char) :
  slug_char c = true ->
  plain_char c = true /\ ascii_lower_char c = c /\ char_eqb c c_space = false.
Proof.
  unfold slug_char, plain_char, is_ascii, ascii_lower_char, char_eqb, c_space.
  intros H.
  repeat (apply orb_prop in H as [H|H]);
    repeat (apply andb_prop in H as [? H]);
    repeat match goal with
           | H : (_ <=? _)%N = true |- _ => apply N.leb_le in H
           | H : (_ =? _)%N = true |- _ => apply N.eqb_eq in H
           end;
    (split; [|split]);
    repeat match goal with
           | |- context [(?a <? ?b)%N] => destruct (N.ltb_spec a b)
           | |- context [(?a <=? ?b)%N] => destruct (N.leb_spec a b)
           | |- context [(?a =? ?b)%N] => destruct (N.eqb_spec a b)
           end; simpl; try reflexivity; lia.
Qed.

Lemma filter_forallb_id {A : Type} (f : A -> bool) (l : list A) :
  forallb f l = true -> filter f l = l.
Proof.
  induction l as [|a l IH]; simpl; [reflexivity|].
  intros H; apply andb_prop in H as [Ha Hl]. rewrite Ha, IH; auto.
Qed.

Lemma forallb_filter {A : Type} (f : A -> bool) (l : list A) :
  forallb f (filter f l) = true.
Proof.
  induction l as [|a l IH]; simpl; [reflexivity|].
  destruct (f a) eqn:E; simpl; [rewrite E|]; auto.
Qed.

Lemma slug_chars_fixed (s : jsstring) :
  forallb slug_char s = true ->
  forallb plain_char s = true /\ ascii_lower s = s /\ spaces_to_dashes s = s.
Proof.
  unfold ascii_lower, spaces_to_dashes.
  induction s as [|c s IH]; simpl; [auto|].
  intros H; apply andb_prop in H as [Hc Hs].
  destruct (slug_char_plain c Hc) as (Hp & Hl & Hsp).
  destruct (IH Hs) as (IH1 & IH2 & IH3).
  rewrite Hp, Hl, Hsp, IH1, IH2, IH3. auto.
Qed.

(** C6.  On a host that lowers the ASCII range as the ASCII table does
    (the capital I left aside), the slug is idempotent, holds nothing but
    lower-case letters, digits, dashes and underscores, is empty for the
    empty text, and is "hello-world" for "Hello World!". *)
Theorem slug_idempotent
  (Hlower : forall s, forallb plain_char s = true ->
                      toLocaleLowerCase s = ascii_lower s) :
  (forall name, make_slug (make_slug name) = make_slug name) /\
  (forall name, forallb slug_char (make_slug name) = true) /\
  make_slug [] = [] /\
  make_slug (js "Hello World!") = js "hello-world".
Proof.
  assert (Hfix : forall s, forallb slug_char s = true -> make_slug s = s).
  { intros s Hs. destruct (slug_chars_fixed s Hs) as (Hp & Hl & Hd).
    unfold make_slug. rewrite (Hlower s Hp), Hl, Hd.
    apply filter_forallb_id. exact Hs. }
  assert (Hchars : forall name, forallb slug_char (make_slug name) = true).
  { intros name. apply forallb_filter. }
  repeat split.
  - intros name. apply Hfix, Hchars.
  - exact Hchars.
  - apply Hfix. reflexivity.
  - unfold make_slug. rewrite Hlower by reflexivity. reflexivity.
Qed.

(** ** Further properties of the loop *)

(** *** The summary lists the title lines *)

Lemma run_summary_titles (lines : list jsstring) (st st' : state) :
  run lines st = OK st' ->
  map (fun t => (depth t, text t, slug t)) (summary st') =
  map (fun t => (depth t, text t, slug t)) (summary st) ++
  map (fun l => (run_length c_hash l, renderInline (title_text l),
                 make_slug (title_text l)))
      (title_lines (inCodeBlock st) lines).
Proof.
  revert st; induction lines as [|l lines IH]; intros st H; simpl in H.
  - inversion H; subst. simpl. rewrite app_nil_r. reflexivity.
  - destruct (step st l) as [st1|e] eqn:E; [|discriminate].
    rewrite (IH _ H), (step_inCodeBlock _ _ _ E). simpl.
    apply step_inv in E. destruct E as [[-> (d & t & Hm & E)]|[-> E]].
    + apply title_match_depth in Hm as (-> & _ & ->).
      apply on_title_inv in E; simpl in E. destruct E as (_ & -> & _).
      rewrite map_app, <- app_assoc. reflexivity.
    + apply on_content_inv in E.
      destruct E as [(_ & _ & ->)|(_ & ->)]; reflexivity.
Qed.

(** X1.  The table of contents of a book whose fence lines are paired has one
    entry for each line that starts with a hash outside a code block, in
    the order of the lines; the depth of the entry is the number of hashes
    that start the line, its text the rendering of what follows the hashes
    and the spaces, and its slug the slug of that text. *)
Theorem summary_lists_title_lines (lines : list jsstring) (b : book)
  (Hbuilt : build_lines lines = OK b)
  (Hfences : Nat.even (fence_count lines) = true) :
  map (fun t => (depth t, text t, slug t)) (book_summary b) =
  map (fun l => (run_length c_hash l, renderInline (title_text l),
                 make_slug (title_text l)))
      (title_lines false lines).
Proof.
  apply build_lines_cases in Hbuilt as (st & Hrun & Hcase).
  pose proof (run_initial_inCodeBlock _ _ Hrun) as Hin.
  rewrite <- Nat.negb_even, Hfences in Hin; simpl in Hin.
  destruct Hcase as [(_ & _ & ->)|(Hin' & _)]; [|congruence].
  simpl. apply (run_summary_titles _ _ _ Hrun).
Qed.

(** *** A document without a title *)

Lemma title_depths_lines (inCB : bool) (lines : list jsstring) :
  title_depths inCB lines = map (run_length c_hash) (title_lines inCB lines).
Proof.
  revert inCB; induction lines as [|l lines IH]; intros inCB; simpl;
    [reflexivity|].
  destruct (is_title_line inCB l); simpl; rewrite IH; reflexivity.
Qed.

Lemma run_without_title (lines : list jsstring) :
  title_depths false lines = [] ->
  run lines initial =
  if existsb trim_nonempty lines
  then Err (Exit CONTENT_OUTSIDE_SECTIONS) else OK initial.
Proof.
  induction lines as [|l lines IH]; simpl; [reflexivity|].
  destruct (is_title_line false l) eqn:Et; [discriminate|].
  intros Hd. rewrite (step_content_line initial l Et).
  unfold on_content. simpl List.length. simpl Nat.leb.
  destruct (trim_nonempty l) eqn:Eb; [reflexivity|]. simpl.
  assert (Ef : toggle false l = false).
  { unfold toggle. destruct (startsWith fence l) eqn:Ef; [|reflexivity].
    rewrite (fence_nonblank _ Ef) in Eb; discriminate. }
  simpl inCodeBlock in *. rewrite Ef in *.
  change (with_inCodeBlock initial false) with initial. auto.
Qed.

(** X9.  A document in which no line is a title never builds: if all its lines
    are blank (the empty document among them) the build ends with the
    error of the missing main title, raised on [END_OF_FILE]; otherwise it
    ends on the first line that is not blank with the error of content
    outside sections. *)
Theorem build_without_title (lines : list jsstring)
  (Hnone : title_depths false lines = []) :
  build_lines lines =
  Err (Exit (if existsb trim_nonempty lines
             then CONTENT_OUTSIDE_SECTIONS else MAIN_TITLE_NOT_FOUND)).
Proof.
  unfold build_lines. rewrite run_app, (run_without_title _ Hnone).
  destruct (existsb trim_nonempty lines); reflexivity.
Qed.

(** *** Sections and the titles of depth 2 *)

Lemma filter_section_snoc (l : list title_obj) (t : title_obj) :
  filter is_section_title (l ++ [t]) =
  filter is_section_title l ++ (if depth t =? 2 then [t] else []).
Proof. rewrite filter_app. reflexivity. Qed.

Lemma step_section_slugs_inv (st : state) (line : jsstring) (st' : state) :
  section_slugs_inv st -> step st line = OK st' -> section_slugs_inv st'.
Proof.
  unfold section_slugs_inv. intros Hinv H. apply step_inv in H.
  destruct H as [[_ (d & t & _ & H)]|[_ H]].
  - apply on_title_inv in H; simpl in H.
    destruct H as (_ & Hs & _ & Hls & _ & Hf & _ & Hsec).
    rewrite Hs, Hls, Hf, Hsec, filter_section_snoc, map_app. simpl depth.
    destruct (d =? 2); destruct (firstSection st); simpl in *;
      rewrite <- Hinv, ?map_app, ?app_nil_r; simpl;
      rewrite <- ?app_assoc; reflexivity.
  - apply on_content_inv in H.
    destruct H as [(_ & _ & ->)|(_ & ->)]; exact Hinv.
Qed.

Lemma run_section_slugs_inv (lines : list jsstring) (st : state) :
  run lines initial = OK st -> section_slugs_inv st.
Proof.
  apply (run_invariant section_slugs_inv step_section_slugs_inv).
  reflexivity.
Qed.

(** X3.  In a book whose fence lines are paired, the sections are the titles of
    depth 2 of the summary, in order: each section carries the slug of its
    title, so there are as many sections as titles of depth 2, whatever
    the other titles are. *)
Theorem sections_follow_section_titles (lines : list jsstring) (b : book)
  (Hbuilt : build_lines lines = OK b)
  (Hfences : Nat.even (fence_count lines) = true) :
  map sec_slug (book_sections b) =
  map slug (filter is_section_title (book_summary b)) /\
  List.length (book_sections b) = count_sections (book_summary b).
Proof.
  apply build_lines_cases in Hbuilt as (st & Hrun & Hcase).
  pose proof (run_initial_inCodeBlock _ _ Hrun) as Hin.
  rewrite <- Nat.negb_even, Hfences in Hin; simpl in Hin.
  destruct Hcase as [(_ & _ & ->)|(Hin' & _)]; [|congruence].
  pose proof (run_section_slugs_inv _ _ Hrun) as Hinv.
  unfold section_slugs_inv in Hinv. simpl.
  assert (E : map sec_slug
                (if firstSection st then sections st
                 else sections st ++
                      [{| sec_slug := lastSlug st;
                          content := flush (sectionBuff st) (titleBuff st) |}])
              = map slug (filter is_section_title (summary st))).
  { rewrite <- Hinv. destruct (firstSection st).
    - rewrite app_nil_r. reflexivity.
    - rewrite map_app. reflexivity. }
  split; [exact E|].
  apply (f_equal (@List.length _)) in E. rewrite !length_map in E.
  exact E.
Qed.

(** *** Titles are entries of the sections *)

Lemma titles_of_app (a b : list item) :
  titles_of (a ++ b) = titles_of a ++ titles_of b.
Proof.
  induction a as [|[t|h] a IH]; simpl; [reflexivity| |]; rewrite IH;
    reflexivity.
Qed.

Lemma titles_of_flush (buff : list item) (lines : list jsstring) :
  titles_of (flush buff lines) = titles_of buff.
Proof.
  unfold flush. destruct (trim_nonempty _); [|reflexivity].
  rewrite titles_of_app. simpl. apply app_nil_r.
Qed.

Lemma step_titles_inv (st : state) (line : jsstring) (st' : state) :
  titles_inv st -> step st line = OK st' -> titles_inv st'.
Proof.
  unfold titles_inv. intros Hinv H. apply step_inv in H.
  destruct H as [[_ (d & t & Hm & H)]|[_ H]].
  - apply title_match_depth in Hm as (_ & Hd & _).
    unfold on_title in H.
    destruct (check_main_title (summary st) d) as [[]|] eqn:Hchk;
      [|discriminate].
    unfold check_main_title in Hchk.
    destruct (summary st) as [|x rest] eqn:Es.
    + destruct (Nat.eqb_spec d 1) as [->|]; [|discriminate].
      inversion H; subst; clear H. cbn -[flush] in *.
      exact Hinv.
    + destruct (Nat.eqb_spec d 1) as [|Hne]; [discriminate|].
      assert (E2 : (2 <=? d) = true) by (apply Nat.leb_le; lia).
      rewrite E2 in H.
      destruct ((d =? 2) && negb (firstSection st));
        inversion H; subst; clear H; cbn -[flush] in *.
      * rewrite flat_map_app, titles_of_app. cbn -[flush].
        rewrite app_nil_r, titles_of_flush, <- Hinv, <- app_assoc.
        reflexivity.
      * rewrite titles_of_app, titles_of_flush. cbn -[flush].
        rewrite <- Hinv, <- app_assoc. reflexivity.
  - apply on_content_inv in H.
    destruct H as [(_ & _ & ->)|(_ & ->)]; exact Hinv.
Qed.

Lemma run_titles_inv (lines : list jsstring) (st : state) :
  run lines initial = OK st -> titles_inv st.
Proof.
  apply (run_invariant titles_inv step_titles_inv). reflexivity.
Qed.

(** X4.  In a book whose fence lines are paired and that has a title of depth
    2, every title but the main title is an entry of exactly one section:
    the titles found in the sections, read in order, are the summary
    without its first entry.  A book without a title of depth 2 has no
    section at all, whatever follows its main title. *)
Theorem titles_spread_over_sections (lines : list jsstring) (b : book)
  (Hbuilt : build_lines lines = OK b)
  (Hfences : Nat.even (fence_count lines) = true) :
  (count_sections (book_summary b) = 0 -> book_sections b = []) /\
  (0 < count_sections (book_summary b) ->
   titles_of (flat_map content (book_sections b)) = tl (book_summary b)).
Proof.
  apply build_lines_cases in Hbuilt as (st & Hrun & Hcase).
  pose proof (run_initial_inCodeBlock _ _ Hrun) as Hin.
  rewrite <- Nat.negb_even, Hfences in Hin; simpl in Hin.
  destruct Hcase as [(_ & _ & ->)|(Hin' & _)]; [|congruence].
  pose proof (run_sections_inv _ _ Hrun) as Hsec.
  pose proof (run_titles_inv _ _ Hrun) as Htit.
  unfold sections_inv in Hsec. unfold titles_inv in Htit. simpl.
  destruct (firstSection st).
  - destruct Hsec as [Hnil Hzero]. split; [auto|]. lia.
  - split; [lia|]. intros _.
    rewrite flat_map_app, titles_of_app. cbn -[flush].
    rewrite app_nil_r, titles_of_flush. exact Htit.
Qed.

(** *** The labels of the sections *)

Lemma advance_section (k : nat) (rest : list cell) :
  advance (Num 0 :: Num 0 :: Num k :: rest) 2 =
  Num 0 :: Num 0 :: Num (S k) :: map (fun _ => Num 0) rest.
Proof. reflexivity. Qed.

Lemma advance_deeper (c0 c1 c2 : cell) (rest : list cell) (d : nat) :
  3 <= d ->
  exists rest', advance (c0 :: c1 :: c2 :: rest) d = c0 :: c1 :: c2 :: rest'.
Proof.
  intros Hd. destruct d as [|[|[|d]]]; try lia.
  unfold advance. simpl. eexists. reflexivity.
Qed.

Lemma counter_label_section (k : nat) (rest : list cell) :
  counter_label (Num 0 :: Num 0 :: Num (S k) :: map (fun _ => Num 0) rest) =
  number_to_string (S k) ++ [c_dot].
Proof.
  unfold counter_label. simpl filter.
  replace (filter positive (map (fun _ => Num 0) rest)) with (@nil cell).
  - reflexivity.
  - induction rest as [|c rest IH]; simpl; auto.
Qed.

Lemma count_sections_snoc (l : list title_obj) (t : title_obj) :
  count_sections (l ++ [t]) =
  count_sections l + (if depth t =? 2 then 1 else 0).
Proof.
  rewrite count_sections_app. unfold count_sections at 2. simpl.
  destruct (depth t =? 2); reflexivity.
Qed.

Lemma step_section_labels_inv (st : state) (line : jsstring) (st' : state) :
  section_counter_inv st /\ section_labels_inv (summary st) ->
  step st line = OK st' ->
  section_counter_inv st' /\ section_labels_inv (summary st').
Proof.
  unfold section_counter_inv. intros [(rest & Hc) Hl] H. apply step_inv in H.
  destruct H as [[_ (d & t & Hm & H)]|[_ H]].
  - apply title_match_depth in Hm as (_ & Hd & _).
    apply on_title_inv in H; simpl in H.
    destruct H as (_ & Hs & Hc' & _).
    rewrite Hs, Hc', Hc, count_sections_snoc. simpl depth.
    destruct (Nat.eqb_spec d 1) as [->|Hne]; simpl negb; cbv iota.
    + simpl. rewrite Nat.add_0_r. split; [eauto|].
      intros pre x post E Hx.
      apply snoc_split in E as [(-> & -> & ->)|(post' & -> & E')];
        [discriminate Hx|]. eapply Hl; eauto.
    + destruct (Nat.eqb_spec d 2) as [->|Hne2].
      * rewrite advance_section, Nat.add_1_r. split; [eauto|].
        intros pre x post E Hx.
        apply snoc_split in E as [(-> & -> & ->)|(post' & -> & E')];
          [|eapply Hl; eauto].
        simpl. apply counter_label_section.
      * destruct (advance_deeper (Num 0) (Num 0)
                    (Num (count_sections (summary st))) rest d)
          as (rest' & ->); [lia|].
        rewrite Nat.add_0_r. split; [eauto|].
        intros pre x post E Hx.
        apply snoc_split in E as [(-> & -> & ->)|(post' & -> & E')];
          [simpl in Hx; contradiction|]. eapply Hl; eauto.
  - apply on_content_inv in H.
    destruct H as [(_ & _ & ->)|(_ & ->)]; simpl; eauto.
Qed.

Lemma run_section_labels_inv (lines : list jsstring) (st : state) :
  run lines initial = OK st ->
  section_counter_inv st /\ section_labels_inv (summary st).
Proof.
  apply (run_invariant
           (fun st => section_counter_inv st /\
                      section_labels_inv (summary st))
           step_section_labels_inv).
  split.
  - exists [Num 0; Num 0]. reflexivity.
  - intros pre t post E. destruct pre; discriminate.
Qed.

(** X5.  In every book that is built, the label of a title of depth 2 is its
    rank among the titles of depth 2, counted from 1, followed by a dot,
    whatever titles of other depths come in between. *)
Theorem section_label_is_rank (lines : list jsstring) (b : book)
  (pre post : list title_obj) (t : title_obj)
  (Hbuilt : build_lines lines = OK b)
  (Hat : book_summary b = pre ++ t :: post)
  (Hdepth : depth t = 2) :
  prettydepth t = number_to_string (S (count_sections pre)) ++ [c_dot].
Proof.
  apply build_lines_summary in Hbuilt as (st & dropped & Hrun & _ & Hsum & _).
  destruct (run_section_labels_inv _ _ Hrun) as [_ Hl].
  apply (Hl pre t (post ++ dropped)); [|exact Hdepth].
  rewrite Hsum, Hat, <- app_assoc. reflexivity.
Qed.

(** *** Rendered content *)

Lemma step_content_inv (st : state) (line : jsstring) (st' : state) :
  content_inv st -> step st line = OK st' -> content_inv st'.
Proof.
  unfold content_inv. intros [Hb Hs] H. apply step_inv in H.
  destruct H as [[_ (d & t & _ & H)]|[_ H]].
  - assert (Hf : Forall nonblank_item
                   (flush (sectionBuff st) (titleBuff st))).
    { unfold flush. destruct (trim_nonempty _) eqn:E; [|assumption].
      apply Forall_app; split; [assumption|].
      constructor; [exact E|constructor]. }
    unfold on_title in H.
    destruct (check_main_title (summary st) d) as [[]|]; [|discriminate].
    destruct (2 <=? d), ((d =? 2) && negb (firstSection st)), (d =? 1);
      inversion H; subst; clear H; cbn -[flush]; split;
      repeat (apply Forall_app; split); auto;
      repeat constructor; auto.
  - apply on_content_inv in H.
    destruct H as [(_ & _ & ->)|(_ & ->)]; simpl; auto.
Qed.

Lemma run_content_inv (lines : list jsstring) (st : state) :
  run lines initial = OK st -> content_inv st.
Proof.
  apply (run_invariant content_inv step_content_inv).
  split; constructor.
Qed.

(** X8.  No section of a book that is built holds an entry of content that is
    empty or made of white space only: what the renderer returns for the
    buffered lines is kept only when trimming it leaves something. *)
Theorem no_blank_content (lines : list jsstring) (b : book)
  (s : section) (html : jsstring)
  (Hbuilt : build_lines lines = OK b)
  (Hs : In s (book_sections b))
  (He : In (Content html) (content s)) :
  trim_nonempty html = true.
Proof.
  apply build_lines_cases in Hbuilt as (st & Hrun & Hcase).
  destruct (run_content_inv _ _ Hrun) as [Hb Hsec].
  assert (Hall : Forall (fun s => Forall nonblank_item (content s))
                   (book_sections b)).
  { destruct Hcase as [(_ & _ & ->)|(_ & _ & _ & ->)]; cbn -[flush];
      [|assumption].
    destruct (firstSection st); [assumption|].
    apply Forall_app; split; [assumption|].
    constructor; [|constructor]. cbn -[flush].
    unfold flush. destruct (trim_nonempty _) eqn:E; [|assumption].
    apply Forall_app; split; [assumption|].
    constructor; [exact E|constructor]. }
  rewrite Forall_forall in Hall. specialize (Hall s Hs).
  rewrite Forall_forall in Hall. exact (Hall _ He).
Qed.

(** *** Lines between two titles *)

Lemma run_content_lines (block : list jsstring) (st : state) :
  2 <= List.length (summary st) ->
  title_lines (inCodeBlock st) block = [] ->
  run block st =
  OK (with_inCodeBlock (with_titleBuff st (titleBuff st ++ block))
        (xorb (inCodeBlock st) (Nat.odd (fence_count block)))).
Proof.
  revert st; induction block as [|l block IH]; intros st Hlen Hnone.
  - simpl. rewrite app_nil_r, xorb_false_r. destruct st; reflexivity.
  - simpl in Hnone.
    destruct (is_title_line (inCodeBlock st) l) eqn:Et; [discriminate|].
    simpl. rewrite (step_content_line _ _ Et). unfold on_content.
    destruct (Nat.leb_spec (List.length (summary st)) 1); [lia|].
    rewrite IH; [|exact Hlen|exact Hnone].
    assert (E1 : (titleBuff st ++ [l]) ++ block = titleBuff st ++ l :: block)
      by (rewrite <- app_assoc; reflexivity).
    assert (E2 : xorb (toggle (inCodeBlock st) l)
                   (Nat.odd (fence_count block)) =
                 xorb (inCodeBlock st) (Nat.odd (fence_count (l :: block)))).
    { rewrite fence_count_cons. unfold toggle.
      destruct (startsWith fence l); [|reflexivity].
      change (1 + fence_count block) with (S (fence_count block)).
      rewrite Nat.odd_succ, <- Nat.negb_odd.
      destruct (inCodeBlock st), (Nat.odd (fence_count block));
        reflexivity. }
    unfold with_inCodeBlock, with_titleBuff.
    cbn [summary sections sectionBuff titleBuff mainTitle lastSlug counter
         firstSection inCodeBlock].
    rewrite E1, E2. reflexivity.
Qed.

(** X7.  Once the summary has two entries, lines that are not titles are only
    buffered, in order and whatever they hold (fence lines, lines of code
    that start with a hash, blank lines): the summary, the sections, the
    section buffer and the counters stay as they are.  The title that
    follows renders all of them at once, joined with LF, into the section
    that is open, and empties the buffer; when this title is of depth 2
    and a section is open, that section is closed with this content. *)
Theorem lines_between_titles (st : state) (block : list jsstring)
  (Hsummary : 2 <= List.length (summary st))
  (Hblock : title_lines (inCodeBlock st) block = []) :
  exists st1,
    run block st = OK st1 /\
    summary st1 = summary st /\ sections st1 = sections st /\
    sectionBuff st1 = sectionBuff st /\ counter st1 = counter st /\
    titleBuff st1 = titleBuff st ++ block /\
    forall line st2,
      is_title_line (inCodeBlock st1) line = true ->
      step st1 line = OK st2 ->
      exists t,
        summary st2 = summary st ++ [t] /\ 2 <= depth t /\
        titleBuff st2 = [] /\
        (if (depth t =? 2) && negb (firstSection st)
         then sections st2 =
                sections st ++
                [{| sec_slug := lastSlug st;
                    content := flush (sectionBuff st)
                                 (titleBuff st ++ block) |}] /\
              sectionBuff st2 = [Title t]
         else sections st2 = sections st /\
              sectionBuff st2 =
                flush (sectionBuff st) (titleBuff st ++ block)
                ++ [Title t]).
Proof.
  eexists. split; [apply (run_content_lines _ _ Hsummary Hblock)|].
  cbn -[flush]. repeat (split; [reflexivity|]).
  intros line st2 Ht Hstep.
  apply step_inv in Hstep as [[_ (d & name & Hm & H)]|[Hc _]];
    [|cbn in Hc; congruence].
  apply title_match_depth in Hm as (_ & Hd & _).
  unfold on_title in H.
  cbn [summary sections sectionBuff titleBuff mainTitle lastSlug counter
       firstSection inCodeBlock with_inCodeBlock with_titleBuff] in H.
  destruct (check_main_title (summary st) d) as [[]|] eqn:Hchk;
    [|discriminate].
  unfold check_main_title in Hchk.
  destruct (summary st) as [|x rest] eqn:Es; [simpl in Hsummary; lia|].
  destruct (Nat.eqb_spec d 1) as [|Hne]; [discriminate|].
  assert (E2 : (2 <=? d) = true) by (apply Nat.leb_le; lia).
  rewrite E2 in H.
  destruct ((d =? 2) && negb (firstSection st)) eqn:Ec;
    inversion H; subst; clear H; cbn -[flush];
    eexists; (split; [reflexivity|]); cbn -[flush]; rewrite Ec;
    repeat split; auto; lia.
Qed.

(** *** The failures of a build *)





(** *** The outcome depends on the lines alone *)





(** ** Cutting the source into lines *)

Lemma split_from_nonempty (cur s : jsstring) : split_from cur s <> [].
Proof.
  revert cur; induction s as [|c r IH]; intros cur; simpl; [discriminate|].
  destruct (c =? 13)%N.
  - destruct r as [|d r']; [discriminate|]. destruct (d =? 10)%N; discriminate.
  - destruct (c =? 10)%N; [discriminate|]. apply IH.
Qed.



Lemma join_cons (sep x : jsstring) (l : list jsstring) :
  l <> [] -> join sep (x :: l) = x ++ sep ++ join sep l.
Proof. destruct l; [contradiction|reflexivity]. Qed.

Lemma join_split_from (s cur : jsstring) :
  forallb (fun c => negb (c =? 13)%N) s = true ->
  join [c_lf] (split_from cur s) = cur ++ s.
Proof.
  revert cur; induction s as [|c r IH]; intros cur H; simpl.
  - rewrite app_nil_r. reflexivity.
  - simpl in H. apply andb_prop in H as [Hc Hr].
    apply negb_true_iff in Hc. rewrite Hc.
    destruct (N.eqb_spec c 10) as [->|Hne].
    + rewrite join_cons by apply split_from_nonempty.
      rewrite (IH [] Hr). reflexivity.
    + rewrite (IH _ Hr), <- app_assoc. reflexivity.
Qed.

(** X13.  Cutting a source that holds no CR and joining the lines with LF, as
    the loop does before it renders them, gives the source back. *)
Theorem join_split_lines (source : jsstring)
  (Hcr : forallb (fun c => negb (c =? 13)%N) source = true) :
  join [c_lf] (split_lines source) = source.
Proof. apply (join_split_from source [] Hcr). Qed.

Lemma split_from_app (x s cur : jsstring) :
  forallb (fun c => negb (is_newline c)) x = true ->
  split_from cur (x ++ s) = split_from (cur ++ x) s.
Proof.
  revert cur; induction x as [|c x IH]; intros cur H; simpl.
  - rewrite app_nil_r. reflexivity.
  - simpl in H. apply andb_prop in H as [Hc Hx].
    unfold is_newline in Hc. apply negb_true_iff, orb_false_elim in Hc.
    destruct Hc as [H10 H13]. rewrite H10, H13, (IH _ Hx), <- app_assoc.
    reflexivity.
Qed.

Lemma split_from_lf (cur s : jsstring) :
  split_from cur ([c_lf] ++ s) = cur :: split_from [] s.
Proof. reflexivity. Qed.

Lemma split_from_join (lines : list jsstring) (cur l : jsstring) :
  Forall (fun x => forallb (fun c => negb (is_newline c)) x = true)
    (l :: lines) ->
  split_from cur (join [c_lf] (l :: lines)) = (cur ++ l) :: lines.
Proof.
  revert cur l; induction lines as [|y lines IH]; intros cur l H.
  - inversion H; subst. simpl. rewrite <- (app_nil_r l) at 1.
    rewrite split_from_app by assumption. reflexivity.
  - inversion H as [|? ? Hl Hrest]; subst.
    rewrite join_cons by discriminate.
    rewrite split_from_app by assumption.
    rewrite split_from_lf, (IH [] y Hrest). reflexivity.
Qed.

(** X14.  Joining with LF lines that hold neither CR nor LF, one line at least,
    and cutting the result gives the lines back. *)
Theorem split_join_lines (lines : list jsstring)
  (Hsome : lines <> [])
  (Hlines : Forall (fun x => forallb (fun c => negb (is_newline c)) x = true)
              lines) :
  split_lines (join [c_lf] lines) = lines.
Proof.
  destruct lines as [|l lines]; [contradiction|].
  apply (split_from_join lines [] l Hlines).
Qed.

(** ** Removing the comments *)

Lemma comment_body_bound (s : jsstring) (m : nat) :
  comment_body s = Some m -> m + 3 <= List.length s.
Proof.
  revert m; induction s as [|c r IH]; intros m; [discriminate|].
  cbn [comment_body].
  destruct (startsWith comment_close (c :: r)) eqn:E.
  - intros H; inversion H; subst.
    change comment_close with [45; 45; 62]%N in E.
    apply startsWith_cons in E as (r1 & E1 & E).
    apply startsWith_cons in E as (r2 & -> & E).
    apply startsWith_cons in E as (r3 & -> & _).
    inversion E1; subst. simpl. lia.
  - destruct (is_separator c); [discriminate|].
    destruct (comment_body r) as [k|]; [|discriminate].
    intros H; inversion H; subst. specialize (IH k eq_refl). simpl. lia.
Qed.

Lemma comment_length_bound (s : jsstring) (n : nat) :
  comment_length s = Some n -> 7 <= n <= List.length s.
Proof.
  unfold comment_length.
  destruct (startsWith comment_open s) eqn:E; [|discriminate].
  destruct (comment_body (skipn 4 s)) as [m|] eqn:Eb; [|discriminate].
  intros H; inversion H; subst.
  apply comment_body_bound in Eb. rewrite length_skipn in Eb. lia.
Qed.

Lemma strip_from_skipn (s : jsstring) (k : nat) :
  k <= List.length s -> strip_from k s = strip_comments (skipn k s).
Proof.
  revert k; induction s as [|c r IH]; intros k Hk.
  - destruct k; [reflexivity|simpl in Hk; lia].
  - destruct k as [|k]; [reflexivity|].
    cbn [strip_from skipn]. apply IH. simpl in Hk. lia.
Qed.

(** The comment that starts the text is dropped, and the next match is
    looked for after it; where no comment starts, the character is kept. *)
Lemma strip_comments_unfold (s : jsstring) :
  strip_comments s =
  match comment_length s with
  | Some n => strip_comments (skipn n s)
  | None =>
    match s with
    | [] => []
    | c :: r => c :: strip_comments r
    end
  end.
Proof.
  destruct s as [|c r]; [reflexivity|].
  unfold strip_comments at 1. cbn [strip_from].
  destruct (comment_length (c :: r)) as [n|] eqn:E; [|reflexivity].
  apply comment_length_bound in E. destruct n as [|n]; [lia|].
  replace (S n - 1) with n by lia.
  rewrite strip_from_skipn by (simpl in E; lia). reflexivity.
Qed.


Lemma startsWith_firstn (p y : jsstring) :
  startsWith p y = startsWith p (firstn (List.length p) y).
Proof.
  revert y; induction p as [|a p IH]; intros y; [reflexivity|].
  destruct y as [|b y]; [reflexivity|]. simpl. rewrite <- IH. reflexivity.
Qed.

Lemma startsWith_app_firstn (p x y : jsstring) :
  startsWith p (x ++ y) =
  startsWith p (x ++ firstn (List.length p - List.length x) y).
Proof.
  revert x; induction p as [|a p IH]; intros x; [reflexivity|].
  destruct x as [|b x].
  - cbn [app List.length Nat.sub]. apply startsWith_firstn.
  - cbn [app List.length Nat.sub startsWith]. rewrite <- IH. reflexivity.
Qed.

Lemma startsWith_app_same (p x y y' : jsstring) :
  firstn (List.length p - List.length x) y =
  firstn (List.length p - List.length x) y' ->
  startsWith p (x ++ y) = startsWith p (x ++ y').
Proof.
  intros H. rewrite (startsWith_app_firstn p x y),
    (startsWith_app_firstn p x y'), H. reflexivity.
Qed.

Lemma comment_body_found (body b : jsstring) :
  forallb (fun c => negb (is_separator c)) body = true ->
  occurs comment_close (body ++ js "--") = false ->
  comment_body (body ++ comment_close ++ b) = Some (List.length body).
Proof.
  induction body as [|c body IH]; intros Hsep Hocc; [reflexivity|].
  cbn [forallb] in Hsep. apply andb_prop in Hsep as [Hc Hsep].
  apply negb_true_iff in Hc.
  change ((c :: body) ++ js "--") with (c :: (body ++ js "--")) in Hocc.
  cbn [occurs] in Hocc. apply orb_false_elim in Hocc as [Hs Hocc].
  change ((c :: body) ++ comment_close ++ b)
    with (c :: (body ++ comment_close ++ b)).
  cbn [comment_body].
  replace (startsWith comment_close (c :: body ++ comment_close ++ b))
    with false.
  - rewrite Hc, (IH Hsep Hocc). reflexivity.
  - rewrite <- Hs.
    apply (startsWith_app_same comment_close (c :: body)).
    cbn [List.length]. destruct (List.length body) as [|[|k]]; reflexivity.
Qed.

Lemma skipn_comment (body b : jsstring) :
  skipn (List.length body + 7) (comment_open ++ body ++ comment_close ++ b)
  = b.
Proof.
  replace (List.length body + 7) with (4 + (List.length body + 3)) by lia.
  change (skipn (4 + (List.length body + 3))
            (comment_open ++ body ++ comment_close ++ b))
    with (skipn (List.length body + 3) (body ++ comment_close ++ b)).
  induction body as [|c body IH]; [reflexivity|exact IH].
Qed.

Lemma strip_comment_head (body b : jsstring) :
  forallb (fun c => negb (is_separator c)) body = true ->
  occurs comment_close (body ++ js "--") = false ->
  strip_comments (comment_open ++ body ++ comment_close ++ b) =
  strip_comments b.
Proof.
  intros Hsep Hocc. rewrite strip_comments_unfold.
  unfold comment_length.
  change (startsWith comment_open
            (comment_open ++ body ++ comment_close ++ b)) with true.
  change (skipn 4 (comment_open ++ body ++ comment_close ++ b))
    with (body ++ comment_close ++ b).
  rewrite (comment_body_found body b Hsep Hocc). cbn [option_map].
  rewrite skipn_comment. reflexivity.
Qed.

(** X15.  A comment is removed whole, and the text around it is kept: when no
    opening marker starts in the text [before], and the text [body] holds
    neither the closing marker nor U+2028 or U+2029 (line breaks are
    allowed), the comment made of [body] goes and the removal goes on in
    the text [after]. *)
Theorem strip_removes_comment (before body after : jsstring)
  (Hbefore : occurs comment_open (before ++ js "<!-") = false)
  (Hseparators : forallb (fun c => negb (is_separator c)) body = true)
  (Hbody : occurs comment_close (body ++ js "--") = false) :
  strip_comments
    (before ++ comment_open ++ body ++ comment_close ++ after) =
  before ++ strip_comments after.
Proof.
  induction before as [|c before IH].
  - apply strip_comment_head; assumption.
  - change ((c :: before) ++ js "<!-") with (c :: (before ++ js "<!-"))
      in Hbefore.
    cbn [occurs] in Hbefore. apply orb_false_elim in Hbefore as [Hs Hocc].
    rewrite strip_comments_unfold. unfold comment_length.
    replace (startsWith comment_open
               ((c :: before) ++
                comment_open ++ body ++ comment_close ++ after))
      with false.
    + cbn [app]. rewrite (IH Hocc). reflexivity.
    + rewrite <- Hs.
      apply (startsWith_app_same comment_open (c :: before)).
      cbn [List.length].
      destruct (List.length before) as [|[|[|k]]]; reflexivity.
Qed.

Lemma comment_body_none (s : jsstring) :
  occurs comment_close s = false -> comment_body s = None.
Proof.
  induction s as [|c r IH]; [reflexivity|].
  cbn [occurs comment_body]. intros H.
  apply orb_false_elim in H as [-> H]. rewrite (IH H).
  destruct (is_separator c); reflexivity.
Qed.

Lemma occurs_skipn (p s : jsstring) (k : nat) :
  occurs p s = false -> occurs p (skipn k s) = false.
Proof.
  revert s; induction k as [|k IH]; intros s H; [exact H|].
  destruct s as [|c r]; [exact H|].
  cbn [occurs] in H. apply orb_false_elim in H as [_ H]. apply IH, H.
Qed.

(** X16.  A text in which the opening marker does not occur, or in which the
    closing marker does not occur (an unclosed comment), is left as it
    is. *)
Theorem strip_keeps_text (text : jsstring)
  (Hmarker : occurs comment_open text = false \/
             occurs comment_close text = false) :
  strip_comments text = text.
Proof.
  induction text as [|c r IH]; [reflexivity|].
  rewrite strip_comments_unfold.
  assert (E : comment_length (c :: r) = None).
  { unfold comment_length. destruct Hmarker as [H|H].
    - cbn [occurs] in H. apply orb_false_elim in H as [-> _]. reflexivity.
    - rewrite (comment_body_none _ (occurs_skipn _ _ 4 H)).
      destruct (startsWith comment_open (c :: r)); reflexivity. }
  rewrite E, IH; [reflexivity|].
  destruct Hmarker as [H|H]; cbn [occurs] in H;
    apply orb_false_elim in H as [_ H]; auto.
Qed.



(** *** One main title *)

(** X2.  Every book that is built has exactly one title of depth 1: it is the
    first entry of the summary and the main title given to the template,
    and every other entry of the summary has a depth of 2 or more. *)
Theorem one_main_title (lines : list jsstring) (b : book)
  (Hbuilt : build_lines lines = OK b) :
  exists t0 rest,
    book_summary b = t0 :: rest /\ title b = Some t0 /\ depth t0 = 1 /\
    Forall (fun t => 2 <= depth t) rest /\
    count_occ Nat.eq_dec (map depth (book_summary b)) 1 = 1.
Proof.
  apply build_lines_summary in Hbuilt
    as (st & dropped & Hrun & Htitle & Hsum & Hne).
  destruct (run_title_inv _ _ Hrun) as [_ Ht].
  unfold title_inv in Ht. rewrite Hsum in Ht.
  destruct (book_summary b) as [|t0 rest]; [contradiction|].
  simpl in Ht. destruct Ht as (Hm & Hd & _ & Hall).
  apply Forall_app in Hall as [Hrest _].
  exists t0, rest. rewrite Htitle. repeat split; auto.
  simpl. rewrite Hd. simpl. f_equal.
  clear -Hrest. induction Hrest as [|t rest Ht _ IH]; [reflexivity|].
  simpl. destruct (Nat.eq_dec (depth t) 1); [lia|exact IH].
Qed.

(** *** The labels of the titles of depth 3 *)

Lemma subtitles_since_snoc (l : list title_obj) (t : title_obj) :
  subtitles_since (l ++ [t]) =
  if depth t =? 2 then 0
  else if depth t =? 3 then S (subtitles_since l) else subtitles_since l.
Proof. unfold subtitles_since. rewrite fold_left_app. reflexivity. Qed.

Lemma advance_subtitle (c0 c1 c2 : cell) (j : nat) (rest : list cell) :
  advance (c0 :: c1 :: c2 :: Num j :: rest) 3 =
  c0 :: c1 :: c2 :: Num (S j) :: map (fun _ => Num 0) rest.
Proof. reflexivity. Qed.

Lemma advance_section4 (k j : nat) (rest : list cell) :
  advance (Num 0 :: Num 0 :: Num k :: Num j :: rest) 2 =
  Num 0 :: Num 0 :: Num (S k) :: Num 0 :: map (fun _ => Num 0) rest.
Proof. reflexivity. Qed.

Lemma advance_deeper4 (c0 c1 c2 c3 : cell) (rest : list cell) (d : nat) :
  4 <= d ->
  exists rest',
    advance (c0 :: c1 :: c2 :: c3 :: rest) d = c0 :: c1 :: c2 :: c3 :: rest'.
Proof.
  intros Hd. destruct d as [|[|[|[|d]]]]; try lia.
  unfold advance. simpl. eexists. reflexivity.
Qed.

Lemma counter_label_subtitle (k j : nat) (rest : list cell) :
  counter_label
    (Num 0 :: Num 0 :: Num k :: Num (S j) :: map (fun _ => Num 0) rest) =
  (if k =? 0 then [] else number_to_string k ++ [c_dot])
  ++ number_to_string (S j) ++ [c_dot].
Proof.
  unfold counter_label.
  assert (Z : filter positive (map (fun _ => Num 0) rest) = []).
  { induction rest as [|c rest IH]; simpl; auto. }
  destruct k as [|k]; cbn [filter positive Nat.ltb Nat.leb Nat.eqb];
    rewrite Z; cbn [map cell_to_string join].
  - reflexivity.
  - rewrite <- !app_assoc. reflexivity.
Qed.

Lemma step_subtitle_labels_inv (st : state) (line : jsstring) (st' : state) :
  subtitle_counter_inv st /\ subtitle_labels_inv (summary st) ->
  step st line = OK st' ->
  subtitle_counter_inv st' /\ subtitle_labels_inv (summary st').
Proof.
  unfold subtitle_counter_inv. intros [(rest & Hc) Hl] H.
  apply step_inv in H.
  destruct H as [[_ (d & t & Hm & H)]|[_ H]].
  - apply title_match_depth in Hm as (_ & Hd & _).
    apply on_title_inv in H; simpl in H.
    destruct H as (_ & Hs & Hc' & _).
    rewrite Hs, Hc', Hc, count_sections_snoc, subtitles_since_snoc.
    simpl depth.
    destruct (Nat.eqb_spec d 1) as [->|Hne]; simpl negb; cbv iota.
    + simpl. rewrite Nat.add_0_r. split; [eauto|].
      intros pre x post E Hx.
      apply snoc_split in E as [(-> & -> & ->)|(post' & -> & E')];
        [discriminate Hx|]. eapply Hl; eauto.
    + destruct (Nat.eqb_spec d 2) as [->|Hne2].
      * rewrite advance_section4, Nat.add_1_r. split; [eauto|].
        intros pre x post E Hx.
        apply snoc_split in E as [(-> & -> & ->)|(post' & -> & E')];
          [discriminate Hx|]. eapply Hl; eauto.
      * rewrite Nat.add_0_r. destruct (Nat.eqb_spec d 3) as [->|Hne3].
        -- rewrite advance_subtitle. split; [eauto|].
           intros pre x post E Hx.
           apply snoc_split in E as [(-> & -> & ->)|(post' & -> & E')];
             [|eapply Hl; eauto].
           cbn [prettydepth make_title]. unfold pretty, subtitle_label.
           cbn [Nat.eqb]. apply counter_label_subtitle.
        -- destruct (advance_deeper4 (Num 0) (Num 0)
                       (Num (count_sections (summary st)))
                       (Num (subtitles_since (summary st))) rest d)
             as (rest' & ->); [lia|].
           split; [eauto|].
           intros pre x post E Hx.
           apply snoc_split in E as [(-> & -> & ->)|(post' & -> & E')];
             [simpl in Hx; contradiction|]. eapply Hl; eauto.
  - apply on_content_inv in H.
    destruct H as [(_ & _ & ->)|(_ & ->)]; simpl; eauto.
Qed.

Lemma run_subtitle_labels_inv (lines : list jsstring) (st : state) :
  run lines initial = OK st ->
  subtitle_counter_inv st /\ subtitle_labels_inv (summary st).
Proof.
  apply (run_invariant
           (fun st => subtitle_counter_inv st /\
                      subtitle_labels_inv (summary st))
           step_subtitle_labels_inv).
  split.
  - exists [Num 0]. reflexivity.
  - intros pre t post E. destruct pre; discriminate.
Qed.

(** X6.  In every book that is built, the label of a title of depth 3 is the
    rank of its section followed by a dot, then the rank of the title
    among the titles of depth 3 of this section followed by a dot.  A
    title of depth 3 that comes before every title of depth 2 has no
    section: its label holds its rank alone, as the label of a section
    does. *)
Theorem subtitle_label_is_rank (lines : list jsstring) (b : book)
  (pre post : list title_obj) (t : title_obj)
  (Hbuilt : build_lines lines = OK b)
  (Hat : book_summary b = pre ++ t :: post)
  (Hdepth : depth t = 3) :
  prettydepth t =
  (if count_sections pre =? 0 then []
   else number_to_string (count_sections pre) ++ [c_dot])
  ++ number_to_string (S (subtitles_since pre)) ++ [c_dot].
Proof.
  apply build_lines_summary in Hbuilt as (st & dropped & Hrun & _ & Hsum & _).
  destruct (run_subtitle_labels_inv _ _ Hrun) as [_ Hl].
  apply (Hl pre t (post ++ dropped)); [|exact Hdepth].
  rewrite Hsum, Hat, <- app_assoc. reflexivity.
Qed.
End Engine.

(** ** The engine at work on the example documents

    The host is instantiated with [ascii_lower] and [plain_render]. *)

(** The source is cut at LF, CR and CR LF before the loop runs. *)
Lemma build_splits_lines :
  build ascii_lower plain_render plain_render
    (js "# T" ++ [c_lf] ++ js "## A" ++ [c_cr; c_lf] ++ js "text" ++ [c_cr])
  = build_lines ascii_lower plain_render plain_render
      [js "# T"; js "## A"; js "text"; []].
Proof. reflexivity. Qed.

Lemma sections_length_two_sections :
  exists b,
    build_lines ascii_lower plain_render plain_render two_sections = OK b /\
    title_depths false two_sections = 1 :: repeat 2 2 /\
    Nat.even (fence_count two_sections) = true /\
    List.length (book_sections b) = 2.
Proof.
  eexists. split; [vm_compute; reflexivity|].
  split; [reflexivity|]. split; [reflexivity|].
  apply (sections_length ascii_lower plain_render plain_render
           two_sections _ 2); reflexivity.
Defined.

Lemma end_of_file_not_emitted_two_sections :
  exists b,
    build_lines ascii_lower plain_render plain_render two_sections = OK b /\
    exists st,
      run ascii_lower plain_render plain_render two_sections initial = OK st /\
      book_summary b =
        (if inCodeBlock st then removelast (summary st) else summary st) /\
      book_sections b =
        (if inCodeBlock st || firstSection st then sections st
         else sections st ++
              [{| sec_slug := lastSlug st;
                  content := flush plain_render (sectionBuff st)
                               (titleBuff st) |}]) /\
      (forall t, In t (book_summary b) -> In t (summary st)) /\
      (forall s e, In s (book_sections b) -> In e (content s) ->
         In s (sections st) \/ In e (sectionBuff st) \/
         e = Content (plain_render (join [c_lf] (titleBuff st)))).
Proof.
  eexists. split; [vm_compute; reflexivity|].
  apply (end_of_file_not_emitted ascii_lower plain_render plain_render
           two_sections).
  reflexivity.
Defined.

Lemma unclosed_fence_drops_detail :
  exists st,
    run ascii_lower plain_render plain_render unclosed_fence initial = OK st /\
    Nat.odd (fence_count unclosed_fence) = true /\
    step ascii_lower plain_render plain_render st END_OF_FILE =
      OK (with_inCodeBlock
            (with_titleBuff st (titleBuff st ++ [END_OF_FILE])) true) /\
    exists kept last,
      summary st = kept ++ [last] /\ kept <> [] /\
      build_lines ascii_lower plain_render plain_render unclosed_fence =
        OK {| title := mainTitle st;
              book_summary := kept;
              book_sections := sections st |}.
Proof.
  eexists. split; [vm_compute; reflexivity|].
  split; [reflexivity|].
  apply (unclosed_fence_drops_last_title ascii_lower plain_render plain_render
           unclosed_fence); reflexivity.
Defined.

(** The claim of C10 fails on a document with one title and one fence
    line: the fence line is content outside a section, the build ends
    there, and neither [END_OF_FILE] is read nor the summary popped. *)
Lemma fence_after_title_aborts :
  Nat.odd (fence_count fence_after_title) = true /\
  title_depths false fence_after_title = [1] /\
  build_lines ascii_lower plain_render plain_render fence_after_title =
    Err (Exit CONTENT_OUTSIDE_SECTIONS) /\
  run ascii_lower plain_render plain_render fence_after_title initial =
    Err (Exit CONTENT_OUTSIDE_SECTIONS).
Proof. repeat split; reflexivity. Qed.

Lemma main_title_errors_examples :
  build_lines ascii_lower plain_render plain_render [js "## A"; js "text"] =
    Err (Exit MAIN_TITLE_NOT_FOUND) /\
  build_lines ascii_lower plain_render plain_render
    [js "# T"; js "## A"; js "# U"] = Err (Exit DUPLICATE_MAIN_TITLE).
Proof.
  split.
  - refine (proj1 (main_title_errors ascii_lower plain_render plain_render
      [js "## A"; js "text"] [] [js "text"; END_OF_FILE] (js "## A")
      initial 2 (js "A") eq_refl eq_refl eq_refl eq_refl) eq_refl _).
    discriminate.
  - refine (proj2 (main_title_errors ascii_lower plain_render plain_render
      [js "# T"; js "## A"; js "# U"] [js "# T"; js "## A"] [END_OF_FILE]
      (js "# U") _ 1 (js "U") eq_refl _ _ eq_refl) _ eq_refl).
    + vm_compute; reflexivity.
    + reflexivity.
    + vm_compute; discriminate.
Defined.

Lemma content_outside_sections_examples :
  build_lines ascii_lower plain_render plain_render
    [js "# T"; js "stray"; js "## A"] =
    Err (Exit CONTENT_OUTSIDE_SECTIONS) /\
  exists st,
    run ascii_lower plain_render plain_render [js "# T"] initial = OK st /\
    step ascii_lower plain_render plain_render st (js "  ") = OK st.
Proof.
  split.
  - refine (proj1 (content_outside_sections ascii_lower plain_render
      plain_render [js "# T"; js "stray"; js "## A"] [js "# T"]
      [js "## A"; END_OF_FILE] (js "stray") _ eq_refl _ _ _) eq_refl).
    + vm_compute; reflexivity.
    + simpl; lia.
    + reflexivity.
  - eexists. split; [vm_compute; reflexivity|].
    refine (proj1 (proj2 (content_outside_sections ascii_lower plain_render
      plain_render [js "# T"; js "  "; js "## A"] [js "# T"]
      [js "## A"; END_OF_FILE] (js "  ") _ eq_refl eq_refl _ _) eq_refl)).
    + simpl; lia.
    + reflexivity.
Defined.

Lemma no_title_inside_code_block_two_sections :
  exists st,
    run ascii_lower plain_render plain_render
      [js "# Book"; js ""; js "## One"; js "text"; js "```"] initial = OK st /\
    exists st',
      step ascii_lower plain_render plain_render st (js "# not a title") =
        OK st' /\
      summary st' = summary st /\ sections st' = sections st /\
      sectionBuff st' = sectionBuff st /\ counter st' = counter st /\
      titleBuff st' = titleBuff st ++ [js "# not a title"] /\
      inCodeBlock st' = true.
Proof.
  eexists. split; [vm_compute; reflexivity|].
  refine (proj1 (no_title_inside_code_block ascii_lower plain_render
    plain_render [js "# Book"; js ""; js "## One"; js "text"; js "```"]
    _ (js "# not a title") _ _ _)).
  - vm_compute; reflexivity.
  - reflexivity.
  - reflexivity.
Defined.

Lemma hash_line_is_title_foo :
  inCodeBlock initial = false /\
  startsWith hash (js "#foo") = true /\
  title_match (js "#foo") = Some (1, js "foo") /\
  exists st' t,
    step ascii_lower plain_render plain_render initial (js "#foo") = OK st' /\
    summary st' = summary initial ++ [t] /\
    depth t = 1 /\ text t = plain_render (js "foo").
Proof.
  destruct (hash_line_is_title ascii_lower plain_render plain_render
              initial (js "#foo") eq_refl eq_refl eq_refl)
    as (_ & Hmatch & _ & Hadds).
  split; [reflexivity|]. split; [reflexivity|]. split; [exact Hmatch|].
  exact (Hadds eq_refl).
Defined.

(** The claim of C3 fails on the line "#foo", which starts with a hash
    that no space follows: outside a code block it is a title of depth 1
    with the text "foo", and a document made of this line builds with it
    as its main title. *)
Lemma hash_without_space_is_title :
  startsWith hash (js "#foo") = true /\
  startsWith (js "# ") (js "#foo") = false /\
  exists t,
    build_lines ascii_lower plain_render plain_render [js "#foo"] =
      OK {| title := Some t; book_summary := [t]; book_sections := [] |} /\
    depth t = 1 /\ text t = js "foo" /\ slug t = js "foo".
Proof.
  split; [reflexivity|]. split; [reflexivity|].
  eexists. split; [vm_compute; reflexivity|]. repeat split; reflexivity.
Qed.

Lemma section_slug_of_titles_nested_titles :
  exists b,
    build_lines ascii_lower plain_render plain_render nested_titles = OK b /\
    (exists t0 rest,
       title b = Some t0 /\ book_summary b = t0 :: rest /\
       depth t0 = 1 /\ section_slug t0 = []) /\
    (forall pre t post, book_summary b = pre ++ t :: post ->
       (depth t = 2 -> section_slug t = slug t) /\
       (3 <= depth t ->
        forall before s between,
          pre = before ++ s :: between -> depth s = 2 ->
          Forall (fun u => depth u <> 2) between ->
          section_slug t = slug s)).
Proof.
  eexists. split; [vm_compute; reflexivity|].
  apply (section_slug_of_titles ascii_lower plain_render plain_render
           nested_titles).
  vm_compute; reflexivity.
Defined.

Lemma numbering_labels_nested_titles :
  exists st st' reached,
    run ascii_lower plain_render plain_render [js "# T"; js "## A"] initial
      = OK st /\
    2 <= 3 <= 4 /\
    on_title ascii_lower plain_render plain_render st false 3 (js "A1")
      = OK st' /\
    run ascii_lower plain_render plain_render nested_titles initial
      = OK reached /\
    title_depths false nested_titles = [1; 2; 3; 2; 3; 3] /\
    (exists ns ns' tail t,
       counter st = map Num ns ++ tail /\
       counter st' = map Num ns' ++ map (fun _ => Num 0) tail /\
       List.length ns = 5 /\ List.length ns' = 5 /\
       nth 3 ns' 0 = S (nth 3 ns 0) /\
       (forall i, i < 3 -> nth i ns' 0 = nth i ns 0) /\
       (forall i, 3 < i -> nth i ns' 0 = 0) /\
       summary st' = summary st ++ [t] /\ depth t = 3 /\
       prettydepth t =
         join [c_dot] (map number_to_string (filter (fun n => 0 <? n) ns'))
         ++ [c_dot]) /\
    (forall (st0 st1 : state) (inCB0 : bool) (name0 : jsstring),
       on_title ascii_lower plain_render plain_render st0 inCB0 1 name0
         = OK st1 ->
       counter st1 = counter st0 /\
       exists t, summary st1 = summary st0 ++ [t] /\ depth t = 1 /\
                 prettydepth t = js "0.") /\
    map prettydepth (summary reached) =
      [js "0."; js "1."; js "1.1."; js "2."; js "2.1."; js "2.2."].
Proof.
  eexists. eexists. eexists.
  split; [vm_compute; reflexivity|].
  split; [lia|].
  split; [vm_compute; reflexivity|].
  split; [vm_compute; reflexivity|].
  split; [reflexivity|].
  refine (numbering_labels ascii_lower plain_render plain_render
            [js "# T"; js "## A"] nested_titles _ _ _ false (js "A1") 3
            _ _ _ _ _).
  - vm_compute; reflexivity.
  - lia.
  - vm_compute; reflexivity.
  - vm_compute; reflexivity.
  - reflexivity.
Defined.

(** The claim of C2 fails at depth 5, past the five counters: the read of
    the missing counter is [undefined], its increment is [NaN], no counter
    is increased, and the title of depth 5 is labelled as the section
    above it. *)
Lemma deep_title_not_counted :
  title_depths false deep_title = [1; 2; 5] /\
  advance [Num 0; Num 0; Num 1; Num 0; Num 0] 5 =
    [Num 0; Num 0; Num 1; Num 0; Num 0; NaN] /\
  exists st,
    run ascii_lower plain_render plain_render deep_title initial = OK st /\
    counter st = [Num 0; Num 0; Num 1; Num 0; Num 0; NaN] /\
    map prettydepth (summary st) = [js "0."; js "1."; js "1."].
Proof.
  split; [reflexivity|]. split; [reflexivity|].
  eexists. split; [vm_compute; reflexivity|]. split; reflexivity.
Qed.

Lemma slug_idempotent_ascii_lower :
  (forall s, forallb plain_char s = true -> ascii_lower s = ascii_lower s) /\
  (forall name,
     make_slug ascii_lower (make_slug ascii_lower name) =
     make_slug ascii_lower name) /\
  (forall name, forallb slug_char (make_slug ascii_lower name) = true) /\
  make_slug ascii_lower [] = [] /\
  make_slug ascii_lower (js "Hello World!") = js "hello-world".
Proof.
  split; [reflexivity|].
  apply (slug_idempotent ascii_lower). reflexivity.
Defined.

(** ** The counters of the highlighting callback *)

Section HighlightProperties.

Variable toLocaleLowerCase : jsstring -> jsstring.
Variable highlightSync : jsstring -> jsstring -> jsstring.



Lemma str_eqb_eq (a b : jsstring) : str_eqb a b = true <-> a = b.
Proof.
  revert b; induction a as [|x a IH]; intros [|y b]; simpl;
    try (split; [discriminate|discriminate]); [tauto|].
  unfold char_eqb. rewrite andb_true_iff, N.eqb_eq, IH.
  split; [intros [-> ->]; reflexivity|intros H; inversion H; auto].
Qed.

Lemma str_eqb_refl (a : jsstring) : str_eqb a a = true.
Proof. apply str_eqb_eq. reflexivity. Qed.

Lemma str_eqb_trans_false (k l lang : jsstring) :
  str_eqb k l = true -> str_eqb k lang = str_eqb l lang.
Proof. intros H. apply str_eqb_eq in H. subst. reflexivity. Qed.

Lemma tally_get_app (lang : jsstring) (t u : tally) :
  tally_get lang (t ++ u) =
  match tally_get lang t with
  | Some n => Some n
  | None => tally_get lang u
  end.
Proof.
  induction t as [|[k n] t IH]; simpl; [reflexivity|].
  destruct (str_eqb k lang); auto.
Qed.

Lemma tally_get_add (l lang : jsstring) (m : nat) (t : tally) :
  tally_get lang (tally_add l m t) =
  if str_eqb l lang then option_map (fun n => n + m) (tally_get lang t)
  else tally_get lang t.
Proof.
  induction t as [|[k n] t IH]; simpl.
  - destruct (str_eqb l lang); reflexivity.
  - destruct (str_eqb k l) eqn:Ekl; simpl.
    + rewrite (str_eqb_trans_false _ _ lang Ekl).
      destruct (str_eqb l lang); reflexivity.
    + destruct (str_eqb k lang) eqn:Ek.
      * destruct (str_eqb l lang) eqn:El; [|reflexivity].
        apply str_eqb_eq in Ek, El. subst.
        rewrite str_eqb_refl in Ekl. discriminate.
      * exact IH.
Qed.

Lemma highlight_get (t t1 : tally) (str l html lang : jsstring) :
  highlight toLocaleLowerCase highlightSync t str l = OK (t1, html) ->
  tally_get (js "hasOwnProperty") t = None /\
  html = highlightSync str (js "source." ++ toLocaleLowerCase l) /\
  (str_eqb lang (js "__proto__") = false ->
   tally_get lang t1 =
   if str_eqb l lang
   then Some (match tally_get lang t with Some n => n | None => 0 end
              + List.length str)
   else tally_get lang t).
Proof.
  unfold highlight.
  destruct (tally_get (js "hasOwnProperty") t); [discriminate|].
  destruct (str_eqb l (js "__proto__")) eqn:Ep; intros H; inversion H;
    subst; clear H; (split; [reflexivity|]); (split; [reflexivity|]);
    intros Hlang.
  - destruct (str_eqb l lang) eqn:El; [|reflexivity].
    apply str_eqb_eq in El. subst. congruence.
  - rewrite tally_get_add.
    destruct (str_eqb l lang) eqn:El.
    + apply str_eqb_eq in El. subst l.
      destruct (tally_get lang t) as [n|] eqn:Eg.
      * rewrite Eg. reflexivity.
      * rewrite tally_get_app, Eg. simpl. rewrite str_eqb_refl. reflexivity.
    + destruct (tally_get l t) eqn:Eg; [reflexivity|].
      rewrite tally_get_app. destruct (tally_get lang t); [reflexivity|].
      simpl. rewrite El. reflexivity.
Qed.

Lemma highlight_ok (t : tally) (str l : jsstring) :
  tally_get (js "hasOwnProperty") t = None ->
  exists t1, highlight toLocaleLowerCase highlightSync t str l =
             OK (t1, highlightSync str (js "source." ++ toLocaleLowerCase l)).
Proof.
  intros H. unfold highlight. rewrite H.
  destruct (str_eqb l (js "__proto__")); eexists; reflexivity.
Qed.

Lemma highlighted_length_unused (lang : jsstring)
  (calls : list (jsstring * jsstring)) :
  uses_language lang calls = false -> highlighted_length lang calls = 0.
Proof.
  induction calls as [|[str l] calls IH]; [reflexivity|].
  unfold uses_language. cbn [existsb snd highlighted_length]. intros H.
  apply orb_false_elim in H as [-> H]. exact (IH H).
Qed.

Lemma highlight_proto (t t1 : tally) (str l html : jsstring) :
  highlight toLocaleLowerCase highlightSync t str l = OK (t1, html) ->
  tally_get (js "__proto__") t = None ->
  tally_get (js "__proto__") t1 = None.
Proof.
  unfold highlight.
  destruct (tally_get (js "hasOwnProperty") t); [discriminate|].
  destruct (str_eqb l (js "__proto__")) eqn:Ep; intros H;
    injection H as <- _; intros H0; [exact H0|].
  rewrite tally_get_add, Ep.
  destruct (tally_get l t); [exact H0|].
  rewrite tally_get_app, H0. cbn [tally_get]. rewrite Ep. reflexivity.
Qed.

Lemma highlight_all_proto (calls : list (jsstring * jsstring)) :
  forall t0 t hs,
    tally_get (js "__proto__") t0 = None ->
    highlight_all toLocaleLowerCase highlightSync calls t0 = OK (t, hs) ->
    tally_get (js "__proto__") t = None.
Proof.
  induction calls as [|[str l] calls IH]; intros t0 t hs H0 H.
  - injection H as <- _. exact H0.
  - cbn [highlight_all] in H.
    destruct (highlight toLocaleLowerCase highlightSync t0 str l)
      as [[t1 html]|] eqn:E1; [|discriminate].
    destruct (highlight_all toLocaleLowerCase highlightSync calls t1)
      as [[t2 htmls]|] eqn:E2; [|discriminate].
    injection H as <- _. apply (IH t1 t2 htmls); [|exact E2].
    apply (highlight_proto _ _ _ _ _ E1 H0).
Qed.

Lemma highlight_all_get (calls : list (jsstring * jsstring)) :
  forall t,
    tally_get (js "hasOwnProperty") t = None ->
    uses_language (js "hasOwnProperty") calls = false ->
    exists t',
      highlight_all toLocaleLowerCase highlightSync calls t =
        OK (t', map (fun c => highlightSync (fst c)
                                (js "source." ++ toLocaleLowerCase (snd c)))
                  calls) /\
      forall lang,
        str_eqb lang (js "__proto__") = false ->
        tally_get lang t' =
        if uses_language lang calls
        then Some (match tally_get lang t with Some n => n | None => 0 end
                   + highlighted_length lang calls)
        else tally_get lang t.
Proof.
  induction calls as [|[str l] calls IH]; intros t Ht Hu.
  - exists t. split; [reflexivity|]. intros lang _. reflexivity.
  - unfold uses_language in Hu. cbn [existsb snd] in Hu.
    apply orb_false_elim in Hu as [Hl Hu].
    destruct (highlight_ok t str l Ht) as (t1 & E1).
    pose proof (highlight_get _ _ _ _ _ (js "hasOwnProperty") E1)
      as (_ & _ & Hg).
    specialize (Hg eq_refl). rewrite Hl, Ht in Hg.
    destruct (IH t1 Hg Hu) as (t' & E' & Hget).
    exists t'. cbn [highlight_all]. rewrite E1, E'.
    split; [reflexivity|].
    intros lang Hlang. rewrite (Hget lang Hlang).
    pose proof (highlight_get _ _ _ _ _ lang E1) as (_ & _ & Hg1).
    rewrite (Hg1 Hlang). unfold uses_language.
    cbn [existsb snd highlighted_length].
    fold (uses_language lang calls).
    destruct (uses_language lang calls) eqn:Eu;
      [|rewrite (highlighted_length_unused _ _ Eu)];
      destruct (str_eqb l lang); cbn [orb];
      destruct (tally_get lang t); try reflexivity; f_equal; lia.
Qed.

(** X18.  When no code block of a book has the language [hasOwnProperty], every
    call of the callback returns what the highlighter returns for the text
    and the scope [source.] followed by the language in lower case, and
    afterwards the counter of each language (but [__proto__], which never
    gets one) is the total length of the code blocks of this language;
    a language that no code block has has no counter. *)
Theorem highlight_counts (calls : list (jsstring * jsstring))
  (Hordinary : uses_language (js "hasOwnProperty") calls = false) :
  exists t,
    highlight_all toLocaleLowerCase highlightSync calls [] =
      OK (t, map (fun c => highlightSync (fst c)
                             (js "source." ++ toLocaleLowerCase (snd c)))
                calls) /\
    tally_get (js "__proto__") t = None /\
    forall lang,
      str_eqb lang (js "__proto__") = false ->
      tally_get lang t =
      if uses_language lang calls
      then Some (highlighted_length lang calls) else None.
Proof.
  destruct (highlight_all_get calls [] eq_refl Hordinary) as (t & E & Hget).
  exists t. split; [exact E|]. split; [|exact Hget].
  apply (highlight_all_proto calls [] t _ eq_refl E).
Qed.

Lemma highlight_all_app (a b : list (jsstring * jsstring)) (t : tally) :
  highlight_all toLocaleLowerCase highlightSync (a ++ b) t =
  match highlight_all toLocaleLowerCase highlightSync a t with
  | Err e => Err e
  | OK (t1, ha) =>
    match highlight_all toLocaleLowerCase highlightSync b t1 with
    | Err e => Err e
    | OK (t2, hb) => OK (t2, ha ++ hb)
    end
  end.
Proof.
  revert t; induction a as [|[str l] a IH]; intros t.
  - cbn [app highlight_all].
    destruct (highlight_all toLocaleLowerCase highlightSync b t)
      as [[t2 hb]|]; reflexivity.
  - cbn [app highlight_all].
    destruct (highlight toLocaleLowerCase highlightSync t str l)
      as [[t1 html]|]; [|reflexivity].
    rewrite IH.
    destruct (highlight_all toLocaleLowerCase highlightSync a t1)
      as [[t2 ha]|]; [|reflexivity].
    destruct (highlight_all toLocaleLowerCase highlightSync b t2)
      as [[t3 hb]|]; reflexivity.
Qed.

(** X19.  A code block whose language is [hasOwnProperty] is highlighted, but
    it breaks the callback: the counter it adds hides the method of the
    same name, and the next call, whatever its language, throws. *)
Theorem highlight_breaks (before after : list (jsstring * jsstring))
  (str str' lang' : jsstring)
  (Hbefore : uses_language (js "hasOwnProperty") before = false) :
  highlight_all toLocaleLowerCase highlightSync
    (before ++ (str, js "hasOwnProperty") :: (str', lang') :: after) []
  = Err TypeError.
Proof.
  destruct (highlight_all_get before [] eq_refl Hbefore) as (t & E & Hget).
  rewrite highlight_all_app, E. cbn [highlight_all].
  specialize (Hget (js "hasOwnProperty") eq_refl).
  rewrite Hbefore in Hget. cbn [tally_get] in Hget.
  destruct (highlight_ok t str (js "hasOwnProperty") Hget) as (t1 & E1).
  rewrite E1.
  pose proof (highlight_get _ _ _ _ _ (js "hasOwnProperty") E1)
    as (_ & _ & Hg).
  specialize (Hg eq_refl). rewrite str_eqb_refl in Hg.
  unfold highlight at 1. rewrite Hg. reflexivity.
Qed.

End HighlightProperties.

(** ** Further properties, across hosts and on the example documents *)


Lemma summary_lists_title_lines_two_sections :
  exists b,
    build_lines ascii_lower plain_render plain_render two_sections = OK b /\
    Nat.even (fence_count two_sections) = true /\
    map (fun t => (depth t, text t, slug t)) (book_summary b) =
    map (fun l => (run_length c_hash l, plain_render (title_text l),
                   make_slug ascii_lower (title_text l)))
        (title_lines false two_sections).
Proof.
  eexists. split; [vm_compute; reflexivity|]. split; [reflexivity|].
  apply (summary_lists_title_lines ascii_lower plain_render plain_render
           two_sections); reflexivity.
Defined.

Lemma build_without_title_blank :
  title_depths false [js ""; js "   "] = [] /\
  build_lines ascii_lower plain_render plain_render [js ""; js "   "] =
  Err (Exit (if existsb trim_nonempty [js ""; js "   "]
             then CONTENT_OUTSIDE_SECTIONS else MAIN_TITLE_NOT_FOUND)).
Proof.
  split; [reflexivity|].
  apply (build_without_title ascii_lower plain_render plain_render
           [js ""; js "   "]). reflexivity.
Defined.

Lemma sections_follow_section_titles_nested_titles :
  exists b,
    build_lines ascii_lower plain_render plain_render nested_titles = OK b /\
    Nat.even (fence_count nested_titles) = true /\
    map sec_slug (book_sections b) =
      map slug (filter is_section_title (book_summary b)) /\
    List.length (book_sections b) = count_sections (book_summary b).
Proof.
  eexists. split; [vm_compute; reflexivity|]. split; [reflexivity|].
  apply (sections_follow_section_titles ascii_lower plain_render plain_render
           nested_titles); reflexivity.
Defined.

Lemma titles_spread_over_sections_nested_titles :
  exists b,
    build_lines ascii_lower plain_render plain_render nested_titles = OK b /\
    Nat.even (fence_count nested_titles) = true /\
    (count_sections (book_summary b) = 0 -> book_sections b = []) /\
    (0 < count_sections (book_summary b) ->
     titles_of (flat_map content (book_sections b)) = tl (book_summary b)).
Proof.
  eexists. split; [vm_compute; reflexivity|]. split; [reflexivity|].
  apply (titles_spread_over_sections ascii_lower plain_render plain_render
           nested_titles); reflexivity.
Defined.

Lemma section_label_is_rank_nested_titles :
  exists b t0 t1 t2 t3 post,
    build_lines ascii_lower plain_render plain_render nested_titles = OK b /\
    book_summary b = [t0; t1; t2] ++ t3 :: post /\
    depth t3 = 2 /\
    prettydepth t3 =
      number_to_string (S (count_sections [t0; t1; t2])) ++ [c_dot].
Proof.
  do 6 eexists.
  split; [vm_compute; reflexivity|].
  split; [cbn [app]; reflexivity|].
  split; [reflexivity|].
  eapply (section_label_is_rank ascii_lower plain_render plain_render
            nested_titles).
  - vm_compute; reflexivity.
  - cbn [app book_summary]; reflexivity.
  - reflexivity.
Defined.

Lemma subtitle_label_is_rank_nested_titles :
  exists b t0 t1 t2 t3 t4 t5 post,
    build_lines ascii_lower plain_render plain_render nested_titles = OK b /\
    book_summary b = [t0; t1; t2; t3; t4] ++ t5 :: post /\
    depth t5 = 3 /\
    prettydepth t5 =
      (if count_sections [t0; t1; t2; t3; t4] =? 0 then []
       else number_to_string (count_sections [t0; t1; t2; t3; t4])
            ++ [c_dot])
      ++ number_to_string (S (subtitles_since [t0; t1; t2; t3; t4]))
      ++ [c_dot].
Proof.
  do 8 eexists.
  split; [vm_compute; reflexivity|].
  split; [cbn [app]; reflexivity|].
  split; [reflexivity|].
  eapply (subtitle_label_is_rank ascii_lower plain_render plain_render
            nested_titles).
  - vm_compute; reflexivity.
  - cbn [app book_summary]; reflexivity.
  - reflexivity.
Defined.

Lemma no_blank_content_two_sections :
  exists b s html,
    build_lines ascii_lower plain_render plain_render two_sections = OK b /\
    In s (book_sections b) /\ In (Content html) (content s) /\
    trim_nonempty html = true.
Proof.
  do 3 eexists.
  split; [vm_compute; reflexivity|].
  split; [left; reflexivity|].
  split; [right; left; reflexivity|].
  eapply (no_blank_content ascii_lower plain_render plain_render
            two_sections).
  - vm_compute; reflexivity.
  - left; reflexivity.
  - right; left; reflexivity.
Defined.

Lemma one_main_title_nested_titles :
  exists b,
    build_lines ascii_lower plain_render plain_render nested_titles = OK b /\
    exists t0 rest,
      book_summary b = t0 :: rest /\ title b = Some t0 /\ depth t0 = 1 /\
      Forall (fun t => 2 <= depth t) rest /\
      count_occ Nat.eq_dec (map depth (book_summary b)) 1 = 1.
Proof.
  eexists. split; [vm_compute; reflexivity|].
  apply (one_main_title ascii_lower plain_render plain_render nested_titles).
  vm_compute; reflexivity.
Defined.



Lemma lines_between_titles_code_block :
  exists st,
    run ascii_lower plain_render plain_render
      [js "# Book"; js ""; js "## One"] initial = OK st /\
    2 <= List.length (summary st) /\
    title_lines (inCodeBlock st)
      [js "text"; js "```"; js "# not a title"; js "```"] = [] /\
    exists st1,
      run ascii_lower plain_render plain_render
        [js "text"; js "```"; js "# not a title"; js "```"] st = OK st1 /\
      summary st1 = summary st /\
      titleBuff st1 =
        titleBuff st ++ [js "text"; js "```"; js "# not a title"; js "```"].
Proof.
  eexists. split; [vm_compute; reflexivity|].
  split; [simpl; lia|]. split; [reflexivity|].
  match goal with
  | |- exists st1, run _ _ _ ?blk ?s = OK st1 /\ _ =>
    destruct (lines_between_titles ascii_lower plain_render plain_render
                s blk) as (st1 & H1 & H2 & _ & _ & _ & H3 & _)
  end.
  - simpl; lia.
  - reflexivity.
  - exists st1. split; [exact H1|]. split; [exact H2|exact H3].
Defined.


Lemma join_split_lines_example :
  forallb (fun c => negb (c =? 13)%N) (js "a" ++ [c_lf; c_lf] ++ js "b")
    = true /\
  join [c_lf] (split_lines (js "a" ++ [c_lf; c_lf] ++ js "b")) =
  js "a" ++ [c_lf; c_lf] ++ js "b".
Proof.
  split; [reflexivity|]. apply join_split_lines. reflexivity.
Defined.

Lemma split_join_lines_example :
  [js "a"; js ""; js "b"] <> [] /\
  Forall (fun x => forallb (fun c => negb (is_newline c)) x = true)
    [js "a"; js ""; js "b"] /\
  split_lines (join [c_lf] [js "a"; js ""; js "b"]) =
  [js "a"; js ""; js "b"].
Proof.
  assert (H : Forall (fun x => forallb (fun c => negb (is_newline c)) x
                              = true) [js "a"; js ""; js "b"])
    by (repeat constructor).
  split; [discriminate|]. split; [exact H|].
  apply split_join_lines; [discriminate|exact H].
Defined.

Lemma strip_removes_comment_example :
  occurs comment_open (js "a <b> " ++ js "<!-") = false /\
  forallb (fun c => negb (is_separator c)) (js " x > y" ++ [c_lf] ++ js "z ")
    = true /\
  occurs comment_close ((js " x > y" ++ [c_lf] ++ js "z ") ++ js "--")
    = false /\
  strip_comments
    (js "a <b> " ++ comment_open ++ (js " x > y" ++ [c_lf] ++ js "z ")
     ++ comment_close ++ js " c") =
  js "a <b> " ++ strip_comments (js " c").
Proof.
  split; [reflexivity|]. split; [reflexivity|]. split; [reflexivity|].
  apply strip_removes_comment; reflexivity.
Defined.

Lemma strip_keeps_text_unclosed :
  (occurs comment_open (js "a <!-- b") = false \/
   occurs comment_close (js "a <!-- b") = false) /\
  strip_comments (js "a <!-- b") = js "a <!-- b".
Proof.
  split; [right; reflexivity|].
  apply strip_keeps_text. right; reflexivity.
Defined.

Lemma highlight_counts_example :
  uses_language (js "hasOwnProperty")
    [(js "let x", js "SN"); (js "a", js "js"); (js "y = 2", js "SN")]
  = false /\
  exists t,
    highlight_all ascii_lower (fun str scope => scope ++ str)
      [(js "let x", js "SN"); (js "a", js "js"); (js "y = 2", js "SN")] []
    = OK (t, map (fun c => (js "source." ++ ascii_lower (snd c)) ++ fst c)
               [(js "let x", js "SN"); (js "a", js "js");
                (js "y = 2", js "SN")]) /\
    tally_get (js "__proto__") t = None /\
    forall lang,
      str_eqb lang (js "__proto__") = false ->
      tally_get lang t =
      if uses_language lang
           [(js "let x", js "SN"); (js "a", js "js"); (js "y = 2", js "SN")]
      then Some (highlighted_length lang
                   [(js "let x", js "SN"); (js "a", js "js");
                    (js "y = 2", js "SN")])
      else None.
Proof.
  split; [reflexivity|].
  apply (highlight_counts ascii_lower (fun str scope => scope ++ str)
           [(js "let x", js "SN"); (js "a", js "js"); (js "y = 2", js "SN")]).
  reflexivity.
Defined.

Lemma highlight_breaks_example :
  uses_language (js "hasOwnProperty") [(js "a", js "js")] = false /\
  highlight_all ascii_lower (fun str scope => scope ++ str)
    ([(js "a", js "js")] ++
     (js "b", js "hasOwnProperty") :: (js "c", js "js") :: []) []
  = Err TypeError.
Proof.
  split; [reflexivity|].
  apply (highlight_breaks ascii_lower (fun str scope => scope ++ str)
           [(js "a", js "js")] []). reflexivity.
Defined.
